(** * APIC VLAN validation: parsers, validator and CSV path reconstruction

    A shallow embedding of [src/utils/apicParser.ts] and of the export loop of
    [src/App.tsx].  The source file of the parser holds two versions of the
    module; the embedding follows the first one, which skips header lines
    and extracts addresses and interface paths.

    Strings.  A JavaScript string is a sequence of UTF-16 code units.  The
    model uses [string], whose characters are the code units 0..255; the
    character tables below ([isSpace], [toLowerChar], ...) are the
    JavaScript ones restricted to that range.

    Regular expressions.  Every pattern of the source is a plain sequence of
    quantified character classes, capture groups that are not nested,
    [\b] and [^].  They are written as lists of [item]s and run by a
    backtracking matcher that follows the order of the JavaScript one
    (leftmost start, greedy quantifiers that give back one character at a
    time). *)

From Stdlib Require Import Ascii String List Bool Arith Lia.
From stdpp Require Import gmap strings list fin_maps.

(** ** Characters *)

Module Char.

Definition code (c : ascii) : nat := nat_of_ascii c.

Definition between (lo hi : nat) (c : ascii) : bool :=
  (lo <=? code c) && (code c <=? hi).

(** [\d] *)
Definition isDigit (c : ascii) : bool := between 48 57 c.

Definition isUpper (c : ascii) : bool := between 65 90 c.
Definition isLower (c : ascii) : bool := between 97 122 c.

(** [\w], the class behind [\b]. *)
Definition isWord (c : ascii) : bool :=
  isDigit c || isUpper c || isLower c || Ascii.eqb c "_"%char.

(** White space and line terminators: what [trim] removes and what [\s]
    matches (TAB, LF, VT, FF, CR, SP, NBSP). *)
Definition isSpace (c : ascii) : bool :=
  between 9 13 c || (code c =? 32) || (code c =? 160).

(** [.] matches everything but a line terminator. *)
Definition isDot (c : ascii) : bool :=
  negb ((code c =? 10) || (code c =? 13)).

(** [toLowerCase] on one code unit: A-Z, and the Latin-1 capitals
    U+00C0..U+00DE without the multiplication sign U+00D7. *)
Definition toLowerChar (c : ascii) : ascii :=
  if isUpper c || (between 192 222 c && negb (code c =? 215))
  then ascii_of_nat (code c + 32) else c.

(** Canonicalisation of the [i] flag.  All letters written in the patterns
    are ASCII, and a code unit above 127 never canonicalises to an ASCII
    one, so only a-z are folded. *)
Definition canon (c : ascii) : ascii :=
  if isLower c then ascii_of_nat (code c - 32) else c.

End Char.

(** ** String methods *)

Module Str.

Fixpoint trimStart (s : string) : string :=
  match s with
  | String c s' => if Char.isSpace c then trimStart s' else s
  | EmptyString => EmptyString
  end.

Fixpoint trimEnd (s : string) : string :=
  match s with
  | String c s' =>
      match trimEnd s' with
      | EmptyString => if Char.isSpace c then EmptyString else String c EmptyString
      | t => String c t
      end
  | EmptyString => EmptyString
  end.

(** [s.trim()] *)
Definition trim (s : string) : string := trimEnd (trimStart s).

(** [s.toLowerCase()] *)
Fixpoint toLowerCase (s : string) : string :=
  match s with
  | String c s' => String (Char.toLowerChar c) (toLowerCase s')
  | EmptyString => EmptyString
  end.

(** [s.replace(/[\[\]]/g, '')] *)
Fixpoint stripBrackets (s : string) : string :=
  match s with
  | String c s' =>
      if Ascii.eqb c "["%char || Ascii.eqb c "]"%char then stripBrackets s'
      else String c (stripBrackets s')
  | EmptyString => EmptyString
  end.

(** [s.startsWith(p)] *)
Fixpoint startsWith (p s : string) : bool :=
  match p, s with
  | EmptyString, _ => true
  | String a p', String b s' => Ascii.eqb a b && startsWith p' s'
  | String _ _, EmptyString => false
  end.

(** [s.includes(p)] *)
Fixpoint includes (p s : string) : bool :=
  startsWith p s ||
  match s with
  | String _ s' => includes p s'
  | EmptyString => false
  end.

(** [s.split('\n')]: never empty, [''.split('\n')] is [['']]. *)
Fixpoint splitLines (s : string) : list string :=
  match s with
  | EmptyString => [EmptyString]
  | String c s' =>
      if Ascii.eqb c "010"%char then EmptyString :: splitLines s'
      else match splitLines s' with
           | h :: t => String c h :: t
           | [] => [String c EmptyString]
           end
  end.

(** [rows.join('\n')] *)
Fixpoint joinLines (rows : list string) : string :=
  match rows with
  | [] => EmptyString
  | [r] => r
  | r :: rest => r +:+ String "010"%char (joinLines rest)
  end.

(** Truthiness of a string: the empty string is the only falsy one. *)
Definition truthy (s : string) : bool :=
  match s with EmptyString => false | String _ _ => true end.

End Str.

(** ** Regular expressions *)

Module Re.

Inductive item : Type :=
| Cls (p : ascii -> bool) (lo : nat) (hi : option nat)
    (** a character class with a greedy quantifier {lo,hi} *)
| GOpen                   (** ( *)
| GClose                  (** ) *)
| WordB                   (** \b *)
| Bol.                    (** ^ without the m flag *)

Definition regex : Type := list item.

(** The position of the matcher: the character before it, the text after
    it, the text at the last [GOpen], and the captures closed so far, the
    latest first. *)
Record pos : Type := mkPos {
  before : option ascii;
  rest : string;
  opened : string;
  caps : list string
}.

Definition wordBefore (st : pos) : bool :=
  match before st with Some c => Char.isWord c | None => false end.

Definition wordAfter (st : pos) : bool :=
  match rest st with String c _ => Char.isWord c | EmptyString => false end.

Definition bounded (hi : option nat) : bool :=
  match hi with Some O => true | _ => false end.

(** A greedy class: take one more character while the class and the upper
    bound allow it, and fall back to stopping here when the rest of the
    pattern fails further on. *)
Fixpoint rep {R : Type} (p : ascii -> bool) (k : option ascii -> string -> option R)
    (lo : nat) (hi : option nat) (prev : option ascii) (s : string) {struct s}
    : option R :=
  let stop := match lo with O => k prev s | S _ => None end in
  match s with
  | String c s' =>
      if p c && negb (bounded hi) then
        match rep p k (Nat.pred lo) (option_map Nat.pred hi) (Some c) s' with
        | Some r => Some r
        | None => stop
        end
      else stop
  | EmptyString => stop
  end.

(** Match the whole pattern at one position; the captures come out in the
    order of their groups. *)
Fixpoint matchHere (r : regex) (st : pos) {struct r} : option (list string) :=
  match r with
  | [] => Some (rev (caps st))
  | Cls p lo hi :: r' =>
      rep p (fun prev s => matchHere r' (mkPos prev s (opened st) (caps st)))
        lo hi (before st) (rest st)
  | GOpen :: r' =>
      matchHere r' (mkPos (before st) (rest st) (rest st) (caps st))
  | GClose :: r' =>
      let n := String.length (opened st) - String.length (rest st) in
      matchHere r' (mkPos (before st) (rest st) (opened st)
                      (substring 0 n (opened st) :: caps st))
  | WordB :: r' =>
      if xorb (wordBefore st) (wordAfter st) then matchHere r' st else None
  | Bol :: r' =>
      match before st with None => matchHere r' st | Some _ => None end
  end.

(** Leftmost match: try every start position from left to right. *)
Fixpoint search (r : regex) (prev : option ascii) (s : string) {struct s}
    : option (list string) :=
  match matchHere r (mkPos prev s s []) with
  | Some cs => Some cs
  | None =>
      match s with
      | String c s' => search r (Some c) s'
      | EmptyString => None
      end
  end.

(** [s.match(r)] for a pattern without the g flag: [None] is [null],
    [Some [g1; g2; ...]] holds the groups [m[1]], [m[2]], ... *)
Definition exec (r : regex) (s : string) : option (list string) :=
  search r None s.

(** [m[i]] for i >= 1. *)
Definition group (i : nat) (m : list string) : string :=
  nth (Nat.pred i) m EmptyString.

(** Pattern pieces. *)
Definition one (p : ascii -> bool) : item := Cls p 1 (Some 1).
Definition plus (p : ascii -> bool) : item := Cls p 1 None.
Definition star (p : ascii -> bool) : item := Cls p 0 None.

Definition chr (c : ascii) : ascii -> bool := Ascii.eqb c.
Definition chri (c : ascii) : ascii -> bool :=
  fun x => Ascii.eqb (Char.canon x) (Char.canon c).

Fixpoint lit (s : string) : regex :=
  match s with
  | String c s' => one (chr c) :: lit s'
  | EmptyString => []
  end.

Fixpoint liti (s : string) : regex :=
  match s with
  | String c s' => one (chri c) :: liti s'
  | EmptyString => []
  end.

Definition anyOf (ps : list (ascii -> bool)) : ascii -> bool :=
  fun x => existsb (fun p => p x) ps.

Definition noneOf (ps : list (ascii -> bool)) : ascii -> bool :=
  fun x => negb (anyOf ps x).

End Re.

(** ** The data model of [apicParser.ts] *)

Record EndpointData : Type := mkEndpointData {
  ep_vlan : string;
  ep_ip : string;
  ep_paths : list string;
  ep_pod : string;
  ep_pathsWithNodes : gmap string string;
  ep_pathsWithIPs : gmap string string
}.

Record PathAttachment : Type := mkPathAttachment {
  att_vlan : string;
  att_epg : string;
  att_path : string;
  att_fullPath : string;
  att_pod : string
}.

Inductive Status : Type := allowed | not_allowed.

Record ValidationResult : Type := mkValidationResult {
  res_path : string;
  res_hasActiveEndpoint : bool;
  res_isVlanAllowed : bool;
  res_status : Status
}.

Definition Status_eqb (a b : Status) : bool :=
  match a, b with
  | allowed, allowed | not_allowed, not_allowed => true
  | _, _ => false
  end.

(** ** The patterns of the source *)

Module Pat.
Import Re.

Definition digit : ascii -> bool := Char.isDigit.
Definition space : ascii -> bool := Char.isSpace.
Definition dot : ascii -> bool := Char.isDot.

(** [[\d-]] *)
Definition digitDash : ascii -> bool := anyOf [digit; chr "-"].
(** [[^\/]] *)
Definition notSlash : ascii -> bool := noneOf [chr "/"].
(** [[^\]]] *)
Definition notRBracket : ascii -> bool := noneOf [chr "]"].
(** [[\d()X]] *)
Definition nodeChar : ascii -> bool := anyOf [digit; chr "("; chr ")"; chr "X"].
(** [[\d()X]] under the i flag *)
Definition nodeChari : ascii -> bool := anyOf [digit; chr "("; chr ")"; chri "X"].
(** [[\d()X-]] under the i flag *)
Definition nodeDashChari : ascii -> bool :=
  anyOf [digit; chr "("; chr ")"; chri "X"; chr "-"].
(** [[-\/]] *)
Definition dashSlash : ascii -> bool := anyOf [chr "-"; chr "/"].

(** [/\b(\d{1,3}\.\d{1,3}\.\d{1,3}\.\d{1,3})\b/] *)
Definition ip : regex :=
  [WordB; GOpen;
   Cls digit 1 (Some 3); one (chr "."); Cls digit 1 (Some 3); one (chr ".");
   Cls digit 1 (Some 3); one (chr "."); Cls digit 1 (Some 3);
   GClose; WordB].

(** [/vlan-(\d+)/i] *)
Definition vlan : regex := liti "vlan-" ++ [GOpen; plus digit; GClose].

(** [/(\d+)\s+(eth\d+\/\d+)\s+.*vlan-(\d+)/i] *)
Definition nodeInterface : regex :=
  [GOpen; plus digit; GClose; plus space; GOpen] ++ liti "eth"
  ++ [plus digit; one (chr "/"); plus digit; GClose; plus space; star dot]
  ++ liti "vlan-" ++ [GOpen; plus digit; GClose].

(** [/vpc\s+([\d-]+-VPC-[\d-]+-PG)/i] *)
Definition vpc1 : regex :=
  liti "vpc" ++ [plus space; GOpen; plus digitDash] ++ liti "-VPC-"
  ++ [plus digitDash] ++ liti "-PG" ++ [GClose].

(** [/([\d]+-[\d]+-VPC-[\d]+-[\d]+-PG)/i] *)
Definition vpc3 : regex :=
  [GOpen; plus digit; one (chr "-"); plus digit] ++ liti "-VPC-"
  ++ [plus digit; one (chr "-"); plus digit] ++ liti "-PG" ++ [GClose].

(** [/\b([\d]+-[\d]+-VPC-[\d]+-[\d]+-PG)\b/i] *)
Definition vpc2 : regex := [WordB] ++ vpc3 ++ [WordB].

Definition vpcPatterns : list regex := [vpc1; vpc2; vpc3].

(** The part of both distinguished-name patterns up to the pod:
    [dn\s*:\s*uni\/tn-[^\/]+\/ap-[^\/]+\/epg-([^\/]+)\/rspathAtt-\[topology\/(pod-\d+)] *)
Definition dnHead : regex :=
  liti "dn" ++ [star space; one (chr ":"); star space] ++ liti "uni/tn-"
  ++ [plus notSlash] ++ liti "/ap-" ++ [plus notSlash] ++ liti "/epg-"
  ++ [GOpen; plus notSlash; GClose] ++ liti "/rspathAtt-[topology/"
  ++ [GOpen] ++ liti "pod-" ++ [plus digit; GClose].

(** [\/pathep-\[([^\]]+)\]\]] *)
Definition dnTail : regex :=
  liti "/pathep-[" ++ [GOpen; plus notRBracket; GClose] ++ liti "]]".

(** [/dn\s*:...\/protpaths-([\d()X-]+)\/pathep-\[([^\]]+)\]\]/i] *)
Definition dnVpc : regex :=
  dnHead ++ liti "/protpaths-" ++ [GOpen; plus nodeDashChari; GClose] ++ dnTail.

(** [/dn\s*:...\/paths-([\d()X]+)\/pathep-\[([^\]]+)\]\]/i] *)
Definition dnSingle : regex :=
  dnHead ++ liti "/paths-" ++ [GOpen; plus nodeChari; GClose] ++ dnTail.

(** [/VLAN(\d+)/i] *)
Definition epgVlan : regex := liti "VLAN" ++ [GOpen; plus digit; GClose].

(** [/([\d()X]+)-([\d()X]+)-VPC/] *)
Definition csvVpc : regex :=
  [GOpen; plus nodeChar; GClose; one (chr "-"); GOpen; plus nodeChar; GClose]
  ++ lit "-VPC".

(** [/protpaths-([\d()X]+)-([\d()X]+)/] *)
Definition csvProtpaths : regex :=
  lit "protpaths-"
  ++ [GOpen; plus nodeChar; GClose; one (chr "-"); GOpen; plus nodeChar; GClose].

(** [/^([\d()X]+)[-\/]/] *)
Definition csvSingle : regex :=
  [Bol; GOpen; plus nodeChar; GClose; one dashSlash].

(** [/paths-([\d()X]+)\//] *)
Definition csvPaths : regex :=
  lit "paths-" ++ [GOpen; plus nodeChar; GClose; one (chr "/")].

(** [/(\d+)-(\d+)-VPC/], in [App.tsx] *)
Definition appVpc : regex :=
  [GOpen; plus digit; GClose; one (chr "-"); GOpen; plus digit; GClose]
  ++ lit "-VPC".

(** [/^(\d+)[-\/]/], in [App.tsx] *)
Definition appSingle : regex :=
  [Bol; GOpen; plus digit; GClose; one dashSlash].

End Pat.

(** ** [parseEndpointOutput] *)

(** [new Set<string>()] with [add]: insertion order is kept, as
    [Array.from(pathSet)] reads the elements in that order. *)
Definition setAdd (x : string) (s : list string) : list string :=
  if decide (x ∈ s) then s else s ++ [x].

(** The variables of the loop over the lines. *)
Record EndpointAcc : Type := mkEndpointAcc {
  acc_vlan : string;
  acc_defaultIp : string;
  acc_pathSet : list string;
  acc_pathNodeMap : gmap string string;
  acc_pathIPMap : gmap string string
}.

Definition initAcc : EndpointAcc := mkEndpointAcc "" "" [] ∅ ∅.

(** The test in front of [continue]:
    [!line.trim() || line.includes('Node') && line.includes('Interface')] *)
Definition skipLine (line : string) : bool :=
  negb (Str.truthy (Str.trim line))
  || (Str.includes "Node" line && Str.includes "Interface" line).

(** [const ipMatch = line.match(...); const currentLineIP = ipMatch ? ipMatch[1] : ''] *)
Definition currentLineIP (line : string) : string :=
  match Re.exec Pat.ip line with
  | Some m => Re.group 1 m
  | None => ""
  end.

(** [for (const pattern of vpcPatterns) { ...; break; }]: the first pattern
    that matches gives the VPC path of the line. *)
Fixpoint firstVpcMatch (patterns : list Re.regex) (line : string) : option string :=
  match patterns with
  | [] => None
  | pattern :: more =>
      match Re.exec pattern line with
      | Some vpcMatch => Some (Re.group 1 vpcMatch)
      | None => firstVpcMatch more line
      end
  end.

(** One round of the loop body. *)
Definition endpointLine (acc : EndpointAcc) (line : string) : EndpointAcc :=
  if skipLine line then acc else
  let ipOfLine := currentLineIP line in
  let defaultIp :=
    if Str.truthy ipOfLine && negb (Str.truthy (acc_defaultIp acc))
    then ipOfLine else acc_defaultIp acc in
  let vlan :=
    match Re.exec Pat.vlan line with
    | Some vlanMatch =>
        if negb (Str.truthy (acc_vlan acc)) then Re.group 1 vlanMatch else acc_vlan acc
    | None => acc_vlan acc
    end in
  let '(pathSet1, pathNodeMap, pathIPMap1) :=
    match Re.exec Pat.nodeInterface line with
    | Some nodeInterfaceMatch =>
        let node := Re.group 1 nodeInterfaceMatch in
        let interface_ := Re.group 2 nodeInterfaceMatch in
        (setAdd interface_ (acc_pathSet acc),
         <[interface_ := node]> (acc_pathNodeMap acc),
         if Str.truthy ipOfLine
         then <[interface_ := ipOfLine]> (acc_pathIPMap acc)
         else acc_pathIPMap acc)
    | None => (acc_pathSet acc, acc_pathNodeMap acc, acc_pathIPMap acc)
    end in
  let '(pathSet2, pathIPMap2) :=
    match firstVpcMatch Pat.vpcPatterns line with
    | Some vpcPath =>
        (setAdd vpcPath pathSet1,
         if Str.truthy ipOfLine then <[vpcPath := ipOfLine]> pathIPMap1 else pathIPMap1)
    | None => (pathSet1, pathIPMap1)
    end in
  mkEndpointAcc vlan defaultIp pathSet2 pathNodeMap pathIPMap2.

Definition endpointLines (lines : list string) : EndpointAcc :=
  foldl endpointLine initAcc lines.

(** [if (vlan && pathSet.size > 0) return {...}; return null;] *)
Definition endpointResult (acc : EndpointAcc) : option EndpointData :=
  if Str.truthy (acc_vlan acc) && (0 <? length (acc_pathSet acc)) then
    Some (mkEndpointData (acc_vlan acc) (acc_defaultIp acc) (acc_pathSet acc) ""
            (acc_pathNodeMap acc) (acc_pathIPMap acc))
  else None.

Definition parseEndpointOutput (input : string) : option EndpointData :=
  let lines := Str.splitLines (Str.trim input) in
  endpointResult (endpointLines lines).

(** ** [parseMoqueryOutput] *)

(** [epg.match(/VLAN(\d+)/i)], also [extractVlanFromEpg]. *)
Definition extractVlanFromEpg (epgName : string) : string :=
  match Re.exec Pat.epgVlan epgName with
  | Some vlanMatch => Re.group 1 vlanMatch
  | None => ""
  end.

(** The two attempts on the distinguished name: the match, [isVpc] and
    [protpathsIdentifier]. *)
Definition dnMatchOf (line : string) : option (list string * bool * string) :=
  match Re.exec Pat.dnVpc line with
  | Some dnMatch => Some (dnMatch, true, Re.group 3 dnMatch)
  | None =>
      match Re.exec Pat.dnSingle line with
      | Some dnMatch => Some (dnMatch, false, Re.group 3 dnMatch)
      | None => None
      end
  end.

(** One round of the loop body: [attachments] after the line. *)
Definition moqueryLine (attachments : list PathAttachment) (line : string)
    : list PathAttachment :=
  if negb (Str.truthy (Str.trim line)) then attachments else
  match dnMatchOf line with
  | Some (dnMatch, isVpc, protpathsIdentifier) =>
      let epg := Re.group 1 dnMatch in
      let pod := Re.group 2 dnMatch in
      let pathName := if isVpc then Re.group 4 dnMatch else Re.group 4 dnMatch in
      let vlan := extractVlanFromEpg epg in
      let fullPath :=
        if isVpc
        then pod +:+ "/protpaths-" +:+ protpathsIdentifier +:+ "/pathep-[" +:+ pathName +:+ "]"
        else pod +:+ "/paths-" +:+ protpathsIdentifier +:+ "/pathep-[" +:+ pathName +:+ "]" in
      if Str.truthy vlan && Str.truthy pathName
      then attachments ++ [mkPathAttachment vlan epg pathName fullPath pod]
      else attachments
  | None => attachments
  end.

Definition moqueryLines (lines : list string) : list PathAttachment :=
  foldl moqueryLine [] lines.

Definition parseMoqueryOutput (input : string) : list PathAttachment :=
  moqueryLines (Str.splitLines (Str.trim input)).

(** ** [validateVlanAllowances] *)

(** [path.trim().replace(/[\[\]]/g, '').toLowerCase()] *)
Definition normalizePathName (path : string) : string :=
  Str.toLowerCase (Str.stripBrackets (Str.trim path)).

(** [atts.forEach(att => map.set(normalizePathName(att.path), att))] on a
    map that starts empty. *)
Definition pathMap (atts : list PathAttachment) : gmap string PathAttachment :=
  foldl (fun m att => <[normalizePathName (att_path att) := att]> m) ∅ atts.

Definition validateVlanAllowances (endpointData : EndpointData)
    (pathAttachments : list PathAttachment) : list ValidationResult :=
  let filteredAttachments :=
    List.filter (fun att => String.eqb (att_vlan att) (ep_vlan endpointData))
      pathAttachments in
  let allowedPathsMap := pathMap filteredAttachments in
  foldl (fun results path =>
           let normalizedPath := normalizePathName path in
           let isAllowed := bool_decide (is_Some (allowedPathsMap !! normalizedPath)) in
           results ++ [mkValidationResult path true isAllowed
                         (if isAllowed then allowed else not_allowed)])
    [] (ep_paths endpointData).

(** ** [generateCSV] *)

(** [vlanAttachments.length > 0 ? vlanAttachments[0].pod : 'pod-1'] *)
Definition defaultPodOf (vlan : string) (pathAttachments : list PathAttachment) : string :=
  let vlanAttachments :=
    List.filter (fun att => String.eqb (att_vlan att) vlan) pathAttachments in
  match vlanAttachments with
  | first :: _ => att_pod first
  | [] => "pod-1"
  end.

(** The loop of the VPC branch:
    [for (const att of pathAttachments) { ...; if (...) { pod = att.pod; break; } }] *)
Fixpoint podByNodes (node1 node2 : string) (atts : list PathAttachment) (pod : string)
    : string :=
  match atts with
  | [] => pod
  | att :: more =>
      match Re.exec Pat.csvProtpaths (att_fullPath att) with
      | Some attMatch =>
          if String.eqb (Re.group 1 attMatch) node1
             && String.eqb (Re.group 2 attMatch) node2
          then att_pod att
          else podByNodes node1 node2 more pod
      | None => podByNodes node1 node2 more pod
      end
  end.

(** The loop of the single-path branch. *)
Fixpoint podByNode (node : string) (atts : list PathAttachment) (pod : string) : string :=
  match atts with
  | [] => pod
  | att :: more =>
      match Re.exec Pat.csvPaths (att_fullPath att) with
      | Some attMatch =>
          if String.eqb (Re.group 1 attMatch) node
          then att_pod att
          else podByNode node more pod
      | None => podByNode node more pod
      end
  end.

(** The callback of [notAllowedPaths.map(pathName => ...)]: the path part of
    the row, after [`${vlan},${epg},`]. *)
Definition csvPath (vlan : string) (pathAttachments : list PathAttachment)
    (pathName : string) : string :=
  let moqueryMap := pathMap pathAttachments in
  let defaultPod := defaultPodOf vlan pathAttachments in
  let normalizedPathName := normalizePathName pathName in
  match moqueryMap !! normalizedPathName with
  | Some moqueryData => att_fullPath moqueryData
  | None =>
      match Re.exec Pat.csvVpc pathName with
      | Some vpcMatch =>
          let node1 := Re.group 1 vpcMatch in
          let node2 := Re.group 2 vpcMatch in
          let pod := podByNodes node1 node2 pathAttachments defaultPod in
          pod +:+ "/protpaths-" +:+ node1 +:+ "-" +:+ node2 +:+ "/pathep-[" +:+ pathName +:+ "]"
      | None =>
          match Re.exec Pat.csvSingle pathName with
          | Some singleMatch =>
              let node := Re.group 1 singleMatch in
              let pod := podByNode node pathAttachments defaultPod in
              pod +:+ "/paths-" +:+ node +:+ "/pathep-[" +:+ pathName +:+ "]"
          | None => defaultPod +:+ "/paths-XXX/pathep-[" +:+ pathName +:+ "]"
          end
      end
  end.

Definition csvRow (vlan epg : string) (pathAttachments : list PathAttachment)
    (pathName : string) : string :=
  vlan +:+ "," +:+ epg +:+ "," +:+ csvPath vlan pathAttachments pathName.

(** [results.filter(r => r.status === 'not_allowed')] *)
Definition denied (results : list ValidationResult) : list ValidationResult :=
  List.filter (fun r => Status_eqb (res_status r) not_allowed) results.

Definition csvRows (vlan epg : string) (results : list ValidationResult)
    (pathAttachments : list PathAttachment) : list string :=
  let notAllowedPaths := List.map res_path (denied results) in
  List.map (csvRow vlan epg pathAttachments) notAllowedPaths.

Definition newline : string := String "010"%char "".

Definition generateCSV (vlan epg : string) (results : list ValidationResult)
    (endpointData : EndpointData) (pathAttachments : list PathAttachment) : string :=
  let header := "VLAN,EPG,PATH" in
  header +:+ newline +:+ Str.joinLines (csvRows vlan epg results pathAttachments).

(** ** The export loop of [handleExportAllCSV] in [App.tsx] *)

Record ValidationEntry : Type := mkValidationEntry {
  entry_id : string;
  entry_endpointInput : string;
  entry_epgName : string;
  entry_results : option (list ValidationResult);
  entry_endpointData : option EndpointData
}.

(** [for (const attachment of pathAttachments) { if (...) { pod = attachment.pod; break; } }] *)
Fixpoint podByPath (normalizedPathName : string) (atts : list PathAttachment)
    (pod : string) : string :=
  match atts with
  | [] => pod
  | attachment :: more =>
      let attachmentPath :=
        Str.toLowerCase (Str.stripBrackets (Str.trim (att_path attachment))) in
      if String.eqb attachmentPath normalizedPathName
      then att_pod attachment
      else podByPath normalizedPathName more pod
  end.

(** The body of [notAllowed.forEach(result => ...)]: [fullPath]. *)
Definition exportPath (pathAttachments : list PathAttachment) (result : ValidationResult)
    : string :=
  let normalizedPathName :=
    Str.toLowerCase (Str.stripBrackets (Str.trim (res_path result))) in
  let pod := podByPath normalizedPathName pathAttachments "pod-2" in
  match Re.exec Pat.appVpc (res_path result) with
  | Some vpcMatch =>
      let node1 := Re.group 1 vpcMatch in
      let node2 := Re.group 2 vpcMatch in
      pod +:+ "/protpaths-" +:+ node1 +:+ "-" +:+ node2 +:+ "/pathep-[" +:+ res_path result +:+ "]"
  | None =>
      match Re.exec Pat.appSingle (res_path result) with
      | Some singleMatch =>
          let node := Re.group 1 singleMatch in
          pod +:+ "/paths-" +:+ node +:+ "/pathep-[" +:+ res_path result +:+ "]"
      | None => pod +:+ "/paths-XXX/pathep-[" +:+ res_path result +:+ "]"
      end
  end.

(** What is pushed on [allRows] for one denied result. *)
Definition exportRow (vlanNumber epgFormatted : string)
    (pathAttachments : list PathAttachment) (result : ValidationResult) : string :=
  vlanNumber +:+ "," +:+ epgFormatted +:+ "," +:+ exportPath pathAttachments result.

Definition exportRows (vlanNumber epgFormatted : string) (results : list ValidationResult)
    (pathAttachments : list PathAttachment) : list string :=
  List.map (exportRow vlanNumber epgFormatted pathAttachments) (denied results).

(** The rows of one entry. *)
Definition entryRows (pathAttachments : list PathAttachment) (entry : ValidationEntry)
    : list string :=
  match entry_results entry, entry_endpointData entry with
  | Some results, Some endpointData =>
      let vlanNumber :=
        if Str.truthy (extractVlanFromEpg (entry_epgName entry))
        then extractVlanFromEpg (entry_epgName entry) else ep_vlan endpointData in
      let epgFormatted :=
        if Str.startsWith "epg-" (Str.toLowerCase (entry_epgName entry))
        then entry_epgName entry else "epg-" +:+ entry_epgName entry in
      exportRows vlanNumber epgFormatted results pathAttachments
  | _, _ => []
  end.

(** [handleExportAllCSV]: the error message set, or the text handed to
    [downloadCSV]. *)
Definition handleExportAllCSV (entries : list ValidationEntry)
    (pathAttachments : list PathAttachment) : string + string :=
  let allRows := List.concat (List.map (entryRows pathAttachments) entries) in
  match allRows with
  | [] => inl "No validation issues to export."
  | _ => inr ("VLAN,EPG,PATH" +:+ newline +:+ Str.joinLines allRows)
  end.

(** ** Vocabulary of the statements *)

Definition pathKey (att : PathAttachment) : string :=
  normalizePathName (att_path att).

Definition setAll (m : gmap string PathAttachment) (atts : list PathAttachment)
    : gmap string PathAttachment :=
  foldl (fun m att => <[normalizePathName (att_path att) := att]> m) m atts.

(** The verdict on one path. *)
Definition verdict (endpointData : EndpointData) (pathAttachments : list PathAttachment)
    (path : string) : ValidationResult :=
  let isAllowed :=
    bool_decide (is_Some
      (pathMap (List.filter (fun att => String.eqb (att_vlan att) (ep_vlan endpointData))
                  pathAttachments) !! normalizePathName path)) in
  mkValidationResult path true isAllowed (if isAllowed then allowed else not_allowed).

(** Some attachment of the list carries the VLAN and, up to normalisation,
    the path. *)
Definition attached (vlan path : string) (pathAttachments : list PathAttachment) : Prop :=
  exists att, att ∈ pathAttachments /\ att_vlan att = vlan
              /\ normalizePathName (att_path att) = normalizePathName path.


(** The last attachment of the list whose normalised path is the key. *)
Definition lastWithKey (k : string) (atts : list PathAttachment) : option PathAttachment :=
  last (List.filter (fun att => String.eqb (pathKey att) k) atts).

(** The pod of the first attachment that satisfies a test, and a fallback
    when none does. *)
Definition firstPod (test : PathAttachment -> bool) (atts : list PathAttachment)
    (fallback : string) : string :=
  match List.find test atts with
  | Some att => att_pod att
  | None => fallback
  end.

(** The fallback chain that ends in a literal: the pod of the first
    attachment of the VLAN, else the literal. *)
Definition vlanPodOr (literal vlan : string) (atts : list PathAttachment) : string :=
  firstPod (fun att => String.eqb (att_vlan att) vlan) atts literal.

(** The node pair that [/protpaths-([\d()X]+)-([\d()X]+)/] reads in a full
    path: the pair of its leftmost match, each node as long as possible. *)
Definition protpathsNodes (fullPath : string) : option (string * string) :=
  match Re.exec Pat.csvProtpaths fullPath with
  | Some attMatch => Some (Re.group 1 attMatch, Re.group 2 attMatch)
  | None => None
  end.

Definition hasNodes (node1 node2 : string) (att : PathAttachment) : bool :=
  match protpathsNodes (att_fullPath att) with
  | Some (a, b) => String.eqb a node1 && String.eqb b node2
  | None => false
  end.

(** The test of C6 as the claim words it: the full path contains the text
    [protpaths-<n1>-<n2>]. *)
Definition containsProtpaths (node1 node2 : string) (att : PathAttachment) : bool :=
  Str.includes ("protpaths-" +:+ node1 +:+ "-" +:+ node2) (att_fullPath att).

(** The VPC row path for a pod. *)
Definition vpcPath (pod node1 node2 pathName : string) : string :=
  pod +:+ "/protpaths-" +:+ node1 +:+ "-" +:+ node2 +:+ "/pathep-[" +:+ pathName +:+ "]".

(** The lines the endpoint parser walks through: [input.trim().split('\n')]. *)
Definition linesOf (input : string) : list string :=
  Str.splitLines (Str.trim input).

(** A line that is not skipped and on which [/vlan-(\d+)/i] matches. *)
Definition givesVlan (line : string) : bool :=
  negb (skipLine line) && bool_decide (is_Some (Re.exec Pat.vlan line)).

(** A line that is not skipped and on which the interface pattern or one of
    the VPC patterns matches. *)
Definition givesPath (line : string) : bool :=
  negb (skipLine line)
  && (bool_decide (is_Some (Re.exec Pat.nodeInterface line))
      || bool_decide (is_Some (firstVpcMatch Pat.vpcPatterns line))).

(** The header test of C5 as the claim words it: both words, in any case. *)
Definition headerAnyCase (line : string) : bool :=
  Str.includes "node" (Str.toLowerCase line)
  && Str.includes "interface" (Str.toLowerCase line).

(** ** Shapes of strings and patterns used in the proofs *)

Module Shape.
Import Re.

(** All characters of the string pass the test. *)
Fixpoint allOf (p : ascii -> bool) (s : string) : bool :=
  match s with
  | String c s' => p c && allOf p s'
  | EmptyString => true
  end.

(** A string of white space only. *)
Definition blank (s : string) : bool := allOf Char.isSpace s.

(** A string without a line feed: one line of a blob. *)
Definition oneLine (s : string) : bool :=
  allOf (fun c => negb (Ascii.eqb c "010"%char)) s.

(** The white-space characters of [Char.isSpace]. *)
Definition spaces : list ascii :=
  List.map ascii_of_nat [9; 10; 11; 12; 13; 32; 160].

(** A class that matches no white space. *)
Definition rejectsSpace (p : ascii -> bool) : bool :=
  forallb (fun c => negb (p c)) spaces.

(** The pattern cannot match inside white space: one of its classes has to
    take a character that is not white space. *)
Fixpoint needsInk (r : regex) : bool :=
  match r with
  | [] => false
  | Cls p lo _ :: r' => (rejectsSpace p && (1 <=? lo)) || needsInk r'
  | _ :: r' => needsInk r'
  end.

(** White space after the text cannot change a match: a class that would
    take it is followed by something that needs ink, and no [\b] looks at
    it. *)
Fixpoint trimSafe (r : regex) : bool :=
  match r with
  | [] => true
  | Cls p _ _ :: r' => (rejectsSpace p || needsInk r') && trimSafe r'
  | WordB :: _ => false
  | _ :: r' => trimSafe r'
  end.

(** The pattern starts with a class that has to take a character that is
    not white space. *)
Definition headInk (r : regex) : bool :=
  match r with
  | Cls p lo _ :: _ => rejectsSpace p && (1 <=? lo)
  | _ => false
  end.

End Shape.

(** ** The rest of [apicParser.ts] *)

(** [extractPathName] *)
Definition extractPathName (path : string) : string := path.

(** ** The state and the handlers of [App.tsx] *)

(** The state of the component: the four [useState] cells. *)
Record AppState : Type := mkAppState {
  app_moqueryInput : string;
  app_entries : list ValidationEntry;
  app_pathAttachments : list PathAttachment;
  app_error : option string
}.

(** The first state: one empty entry with the id [1]. *)
Definition initialState : AppState :=
  mkAppState "" [mkValidationEntry "1" "" "" None None] [] None.

(** [addEntry]; [now] stands for [Date.now().toString()]. *)
Definition addEntry (now : string) (entries : list ValidationEntry) : list ValidationEntry :=
  entries ++ [mkValidationEntry now "" "" None None].

(** [removeEntry] *)
Definition removeEntry (id : string) (entries : list ValidationEntry)
    : list ValidationEntry :=
  if 1 <? length entries
  then List.filter (fun e => negb (String.eqb (entry_id e) id)) entries
  else entries.

(** The [field] argument of [updateEntry]. *)
Inductive EntryField : Type := endpointInputField | epgNameField.

(** [{ ...e, [field]: value }] *)
Definition setField (field : EntryField) (value : string) (e : ValidationEntry)
    : ValidationEntry :=
  match field with
  | endpointInputField =>
      mkValidationEntry (entry_id e) value (entry_epgName e)
        (entry_results e) (entry_endpointData e)
  | epgNameField =>
      mkValidationEntry (entry_id e) (entry_endpointInput e) value
        (entry_results e) (entry_endpointData e)
  end.

(** [updateEntry] *)
Definition updateEntry (id : string) (field : EntryField) (value : string)
    (entries : list ValidationEntry) : list ValidationEntry :=
  List.map (fun e => if String.eqb (entry_id e) id then setField field value e else e)
    entries.

(** The callback of [entries.map(entry => ...)] in [handleValidate]. *)
Definition validateEntry (parsedMoquery : list PathAttachment) (entry : ValidationEntry)
    : ValidationEntry :=
  if negb (Str.truthy (Str.trim (entry_endpointInput entry))) then entry else
  match parseEndpointOutput (entry_endpointInput entry) with
  | None => entry
  | Some parsedEndpoint =>
      if negb (Str.truthy (Str.trim (entry_epgName entry))) then entry else
      let vlanFromEpg := extractVlanFromEpg (entry_epgName entry) in
      if negb (Str.truthy vlanFromEpg) then entry else
      let endpointWithCorrectVlan :=
        mkEndpointData vlanFromEpg (ep_ip parsedEndpoint) (ep_paths parsedEndpoint)
          (ep_pod parsedEndpoint) (ep_pathsWithNodes parsedEndpoint)
          (ep_pathsWithIPs parsedEndpoint) in
      let validationResults :=
        validateVlanAllowances endpointWithCorrectVlan parsedMoquery in
      mkValidationEntry (entry_id entry) (entry_endpointInput entry) (entry_epgName entry)
        (Some validationResults) (Some endpointWithCorrectVlan)
  end.

(** [handleValidate]: the state after the handler has run. *)
Definition handleValidate (st : AppState) : AppState :=
  let parsedMoquery := parseMoqueryOutput (app_moqueryInput st) in
  if length parsedMoquery =? 0 then
    mkAppState (app_moqueryInput st) (app_entries st) (app_pathAttachments st)
      (Some "Unable to parse moquery data. Please check your input.")
  else
    mkAppState (app_moqueryInput st)
      (List.map (validateEntry parsedMoquery) (app_entries st))
      parsedMoquery None.

(** [entry.results?.filter(r => r.status === 'not_allowed').length || 0] *)
Definition notAllowedCount (entry : ValidationEntry) : nat :=
  match entry_results entry with
  | Some results => length (denied results)
  | None => 0
  end.

(** [totalNotAllowed] *)
Definition totalNotAllowed (entries : list ValidationEntry) : nat :=
  foldl (fun sum entry => sum + notAllowedCount entry) 0 entries.

(** ** More vocabulary of the statements *)

(** A string of decimal digits. *)
Definition digits (s : string) : bool := Shape.allOf Char.isDigit s.

(** An entry holds results and endpoint data together or not at all. *)
Definition coherent (entry : ValidationEntry) : Prop :=
  is_Some (entry_results entry) <-> is_Some (entry_endpointData entry).

(** The two shapes of a full path written by the attachment parser. *)
Definition fullPathOf (att : PathAttachment) (marker id : string) : string :=
  att_pod att +:+ marker +:+ id +:+ "/pathep-[" +:+ att_path att +:+ "]".

(** The node that [/paths-([\d()X]+)\//] reads in a full path. *)
Definition pathsNode (fullPath : string) : option string :=
  match Re.exec Pat.csvPaths fullPath with
  | Some attMatch => Some (Re.group 1 attMatch)
  | None => None
  end.

Definition hasNode (node : string) (att : PathAttachment) : bool :=
  match pathsNode (att_fullPath att) with
  | Some a => String.eqb a node
  | None => false
  end.

(** The keys of the two maps of the loop are paths of the set. *)
Definition keysInSet (acc : EndpointAcc) : Prop :=
  (forall k, is_Some (acc_pathNodeMap acc !! k) -> k ∈ acc_pathSet acc)
  /\ (forall k, is_Some (acc_pathIPMap acc !! k) -> k ∈ acc_pathSet acc).

(** What [/vlan-(\d+)/i] reads in a line. *)
Definition vlanOfLine (line : string) : string :=
  match Re.exec Pat.vlan line with
  | Some vlanMatch => Re.group 1 vlanMatch
  | None => ""
  end.

(** A line that is not skipped and holds an address. *)
Definition givesIp (line : string) : bool :=
  negb (skipLine line) && Str.truthy (currentLineIP line).

(** What the guard of the attachment parser and the way it fills a record
    promise about the record. *)
Definition wellFormed (att : PathAttachment) : Prop :=
  att_vlan att <> "" /\ att_path att <> ""
  /\ att_vlan att = extractVlanFromEpg (att_epg att)
  /\ digits (att_vlan att) = true.

(** The full path is the pod, a marker with an identifier, and the path. *)
Definition reconstructible (att : PathAttachment) : Prop :=
  exists id,
    att_fullPath att = fullPathOf att "/protpaths-" id
    \/ att_fullPath att = fullPathOf att "/paths-" id.

(** The test of [stripBrackets]. *)
Definition isBracket (c : ascii) : bool :=
  Ascii.eqb c "["%char || Ascii.eqb c "]"%char.

(** A string without square brackets. *)
Definition noBrackets (s : string) : bool :=
  Shape.allOf (fun c => negb (isBracket c)) s.

(** The state after [handleExportAllCSV]: the handler only sets the error,
    and only when there is no row. *)
Definition exportState (st : AppState) : AppState :=
  match handleExportAllCSV (app_entries st) (app_pathAttachments st) with
  | inl message =>
      mkAppState (app_moqueryInput st) (app_entries st) (app_pathAttachments st)
        (Some message)
  | inr _ => st
  end.

(** The states the component can be in: the first state and what the
    handlers make of a state.  The clock is taken to give an id that no
    entry has yet. *)
Inductive reachable : AppState -> Prop :=
| reach_initial : reachable initialState
| reach_moquery st text :
    reachable st ->
    reachable (mkAppState text (app_entries st) (app_pathAttachments st) (app_error st))
| reach_add st now :
    reachable st ->
    now ∉ List.map entry_id (app_entries st) ->
    reachable (mkAppState (app_moqueryInput st) (addEntry now (app_entries st))
                 (app_pathAttachments st) (app_error st))
| reach_remove st id :
    reachable st ->
    reachable (mkAppState (app_moqueryInput st) (removeEntry id (app_entries st))
                 (app_pathAttachments st) (app_error st))
| reach_update st id field value :
    reachable st ->
    reachable (mkAppState (app_moqueryInput st)
                 (updateEntry id field value (app_entries st))
                 (app_pathAttachments st) (app_error st))
| reach_validate st : reachable st -> reachable (handleValidate st)
| reach_export st : reachable st -> reachable (exportState st).

(** What holds of the entries in every reachable state. *)
Definition entriesInvariant (entries : list ValidationEntry) : Prop :=
  entries <> []
  /\ NoDup (List.map entry_id entries)
  /\ Forall coherent entries.

(** All rows of an export. *)
Definition allRowsOf (entries : list ValidationEntry)
    (pathAttachments : list PathAttachment) : list string :=
  List.concat (List.map (entryRows pathAttachments) entries).
(** * Properties *)

(** ** Lists built by [push] and maps built by [set] *)

Section Push.
Context {A B : Type} (f : A -> B).

Lemma foldl_push (l : list A) (acc : list B) :
  foldl (fun results x => results ++ [f x]) acc l = acc ++ List.map f l.
Proof.
  revert acc. induction l as [|x l IH]; intros acc; simpl.
  - by rewrite app_nil_r.
  - rewrite IH. by rewrite <- app_assoc.
Qed.
End Push.

Lemma setAll_snoc m atts att :
  setAll m (atts ++ [att]) = <[pathKey att := att]> (setAll m atts).
Proof. unfold setAll. by rewrite foldl_app. Qed.

(** A key is in the map exactly when an attachment of the list has it. *)
Lemma pathMap_has (atts : list PathAttachment) (k : string) :
  is_Some (pathMap atts !! k) <-> exists att, att ∈ atts /\ pathKey att = k.
Proof.
  unfold pathMap. fold (setAll ∅ atts).
  induction atts as [|att atts IH] using rev_ind.
  - simpl. rewrite lookup_empty. split.
    + intros [? ?]; discriminate.
    + intros (att & Hin & _). by apply elem_of_nil in Hin.
  - rewrite setAll_snoc. destruct (decide (pathKey att = k)) as [Heq|Hne].
    + rewrite Heq, lookup_insert_eq. split; [|by eauto].
      intros _. exists att. split; [|done]. apply elem_of_app. right. by apply list_elem_of_singleton.
    + rewrite lookup_insert_ne by done. rewrite IH. split.
      * intros (a & Hin & Hk). exists a. split; [|done]. apply elem_of_app. by left.
      * intros (a & Hin & Hk). apply elem_of_app in Hin as [Hin|Hin].
        -- by exists a.
        -- apply list_elem_of_singleton in Hin. subst a. done.
Qed.

(** ** The validator *)

Lemma validateVlanAllowances_map endpointData pathAttachments :
  validateVlanAllowances endpointData pathAttachments
  = List.map (verdict endpointData pathAttachments) (ep_paths endpointData).
Proof. unfold validateVlanAllowances. by rewrite foldl_push. Qed.

Lemma elem_of_filter_vlan vlan (atts : list PathAttachment) att :
  att ∈ List.filter (fun a => String.eqb (att_vlan a) vlan) atts
  <-> att ∈ atts /\ att_vlan att = vlan.
Proof.
  rewrite !list_elem_of_In, filter_In, String.eqb_eq. done.
Qed.

Lemma verdict_allowed endpointData pathAttachments path :
  res_isVlanAllowed (verdict endpointData pathAttachments path) = true
  <-> attached (ep_vlan endpointData) path pathAttachments.
Proof.
  unfold verdict, attached; simpl. rewrite bool_decide_eq_true, pathMap_has.
  split.
  - intros (att & Hin & Hk). apply elem_of_filter_vlan in Hin as [Hin Hv]. by exists att.
  - intros (att & Hin & Hv & Hk). exists att. split; [|done].
    by apply elem_of_filter_vlan.
Qed.

Lemma verdict_status endpointData pathAttachments path :
  res_status (verdict endpointData pathAttachments path)
  = if res_isVlanAllowed (verdict endpointData pathAttachments path)
    then allowed else not_allowed.
Proof. done. Qed.

(** C1: [validateVlanAllowances] gives one result per endpoint path, in the
    order of the paths; the result of a path is [allowed] exactly when an
    attachment has the endpoint's VLAN and the same normalised path, and
    [not_allowed] exactly when none has. *)
Theorem validateVlanAllowances_per_path (endpointData : EndpointData)
    (pathAttachments : list PathAttachment) :
  Forall2
    (fun path result =>
       res_path result = path
       /\ (res_status result = allowed
           <-> attached (ep_vlan endpointData) path pathAttachments)
       /\ (res_status result = not_allowed
           <-> ~ attached (ep_vlan endpointData) path pathAttachments))
    (ep_paths endpointData)
    (validateVlanAllowances endpointData pathAttachments).
Proof.
  rewrite validateVlanAllowances_map.
  apply Forall2_fmap_r, Forall_Forall2_diag, Forall_forall.
  intros path _. split; [done|].
  rewrite verdict_status, <- verdict_allowed.
  destruct (res_isVlanAllowed _); split; split; intros H; done.
Qed.

(** C3: without any attachment every path of the endpoint gets a result, and
    every result is [not_allowed]. *)
Theorem validateVlanAllowances_no_attachments (endpointData : EndpointData) :
  ep_paths endpointData <> [] ->
  validateVlanAllowances endpointData [] <> []
  /\ Forall2 (fun path result => res_path result = path /\ res_status result = not_allowed)
       (ep_paths endpointData) (validateVlanAllowances endpointData []).
Proof.
  intros Hpaths. rewrite validateVlanAllowances_map. split.
  - destruct (ep_paths endpointData); [done|discriminate].
  - apply Forall2_fmap_r, Forall_Forall2_diag, Forall_forall.
    intros path _. split; [done|].
    rewrite verdict_status.
    destruct (res_isVlanAllowed _) eqn:Hallowed; [|done].
    apply verdict_allowed in Hallowed as (att & Hin & _).
    by apply elem_of_nil in Hin.
Qed.

Lemma validateVlanAllowances_no_attachments_witness :
  let endpointData := mkEndpointData "713" "10.0.0.1" ["eth1/5"; "425-426-VPC-31-32-PG"] "" ∅ ∅ in
  ep_paths endpointData <> []
  /\ validateVlanAllowances endpointData [] <> []
  /\ Forall2 (fun path result => res_path result = path /\ res_status result = not_allowed)
       (ep_paths endpointData) (validateVlanAllowances endpointData []).
Proof.
  intros endpointData.
  assert (Hpaths : ep_paths endpointData <> []) by (simpl; discriminate).
  split; [exact Hpaths|].
  exact (validateVlanAllowances_no_attachments endpointData Hpaths).
Defined.

(** C9: in every result of [validateVlanAllowances], [isVlanAllowed] is true
    exactly when [status] is [allowed], and [hasActiveEndpoint] is true. *)
Theorem validateVlanAllowances_coupling (endpointData : EndpointData)
    (pathAttachments : list PathAttachment) :
  Forall (fun result =>
            (res_isVlanAllowed result = true <-> res_status result = allowed)
            /\ res_hasActiveEndpoint result = true)
    (validateVlanAllowances endpointData pathAttachments).
Proof.
  rewrite validateVlanAllowances_map. apply Forall_fmap, Forall_forall.
  intros path _. simpl. split; [|done].
  by destruct (bool_decide _).
Qed.

(** ** The path reconstruction of [generateCSV] *)

Lemma pathMap_snoc atts att :
  pathMap (atts ++ [att]) = <[pathKey att := att]> (pathMap atts).
Proof. apply (setAll_snoc ∅). Qed.

Lemma pathMap_lookup (atts : list PathAttachment) (k : string) :
  pathMap atts !! k = lastWithKey k atts.
Proof.
  unfold lastWithKey.
  induction atts as [|att atts IH] using rev_ind; [done|].
  rewrite pathMap_snoc, List.filter_app. simpl.
  destruct (String.eqb_spec (pathKey att) k) as [Heq|Hne].
  - rewrite Heq, lookup_insert_eq. by rewrite last_snoc.
  - rewrite lookup_insert_ne by done. by rewrite app_nil_r.
Qed.

(** [lastWithKey] is the attachment with the key after which no attachment
    of the list has the key. *)
Lemma lastWithKey_spec (k : string) (atts : list PathAttachment) (att : PathAttachment) :
  lastWithKey k atts = Some att
  <-> exists before after,
        atts = before ++ att :: after /\ pathKey att = k
        /\ Forall (fun later => pathKey later <> k) after.
Proof.
  unfold lastWithKey. split.
  - induction atts as [|x atts IH] using rev_ind; [done|].
    rewrite List.filter_app. simpl.
    destruct (String.eqb_spec (pathKey x) k) as [Heq|Hne].
    + rewrite last_snoc. intros [= ->]. by exists atts, [].
    + rewrite app_nil_r. intros Hlast.
      destruct (IH Hlast) as (before & after & -> & Hk & Hafter).
      exists before, (after ++ [x]). rewrite <- app_assoc. split; [done|].
      split; [done|]. apply Forall_app. split; [done|]. by apply Forall_singleton.
  - intros (before & after & -> & Hk & Hafter).
    rewrite List.filter_app. simpl.
    destruct (String.eqb_spec (pathKey att) k) as [_|Hne]; [|done].
    assert (List.filter (fun a => String.eqb (pathKey a) k) after = []) as ->.
    { induction after as [|x after IH]; [done|].
      apply Forall_cons in Hafter as [Hx Hafter]. simpl.
      destruct (String.eqb_spec (pathKey x) k) as [Heq|_]; [done|by apply IH]. }
    apply last_snoc.
Qed.

(** Some attachment of the list has the key exactly when there is a last
    one. *)
Lemma lastWithKey_some (k : string) (atts : list PathAttachment) :
  is_Some (lastWithKey k atts) <-> exists att, att ∈ atts /\ pathKey att = k.
Proof. rewrite <- pathMap_lookup. apply pathMap_has. Qed.

Lemma denied_status (results : list ValidationResult) (result : ValidationResult) :
  result ∈ denied results <-> result ∈ results /\ res_status result = not_allowed.
Proof.
  unfold denied. rewrite !list_elem_of_In, filter_In.
  destruct (res_status result); simpl; split; intros [? ?]; done.
Qed.

Lemma csvRows_elem vlan epg results atts result :
  result ∈ denied results ->
  csvRow vlan epg atts (res_path result) ∈ csvRows vlan epg results atts.
Proof.
  intros Hin. unfold csvRows.
  apply list_elem_of_In, in_map, in_map. by apply list_elem_of_In.
Qed.

(** C10: the exact-match step of [generateCSV] does not look at the VLAN.  A
    denied path whose normalised name is the normalised path of an
    attachment gets the row [vlan,epg,fullPath] with the full path of the
    last such attachment of the list, whatever the VLAN of that attachment. *)
Theorem generateCSV_exact_match_any_vlan (vlan epg : string)
    (results : list ValidationResult) (pathAttachments : list PathAttachment)
    (result : ValidationResult) (att : PathAttachment) :
  result ∈ results ->
  res_status result = not_allowed ->
  lastWithKey (normalizePathName (res_path result)) pathAttachments = Some att ->
  csvRow vlan epg pathAttachments (res_path result)
    = vlan +:+ "," +:+ epg +:+ "," +:+ att_fullPath att
  /\ csvRow vlan epg pathAttachments (res_path result)
       ∈ csvRows vlan epg results pathAttachments.
Proof.
  intros Hin Hstatus Hlast. split.
  - unfold csvRow, csvPath. by rewrite pathMap_lookup, Hlast.
  - apply csvRows_elem, denied_status. done.
Qed.

Lemma generateCSV_exact_match_any_vlan_witness :
  let first := mkPathAttachment "100" "EPG-VLAN100-a" "ETH1/5" "pod-3/paths-301/pathep-[ETH1/5]" "pod-3" in
  let second := mkPathAttachment "200" "EPG-VLAN200-b" "[eth1/5]" "pod-4/paths-302/pathep-[[eth1/5]]" "pod-4" in
  let other := mkPathAttachment "713" "EPG-VLAN713-c" "eth1/9" "pod-1/paths-303/pathep-[eth1/9]" "pod-1" in
  let result := mkValidationResult "eth1/5" true false not_allowed in
  csvRow "713" "epg-x" [first; second; other] "eth1/5"
    = "713,epg-x,pod-4/paths-302/pathep-[[eth1/5]]"
  /\ csvRow "713" "epg-x" [first; second; other] "eth1/5"
       ∈ csvRows "713" "epg-x" [result] [first; second; other].
Proof.
  intros first second other result.
  apply (generateCSV_exact_match_any_vlan "713" "epg-x" [result]
           [first; second; other] result second).
  - apply list_elem_of_In. simpl. by left.
  - reflexivity.
  - vm_compute. reflexivity.
Defined.

(** A loop that stops at the first attachment passing a test is [find]. *)
Lemma podByNodes_firstPod node1 node2 atts pod :
  podByNodes node1 node2 atts pod = firstPod (hasNodes node1 node2) atts pod.
Proof.
  unfold firstPod. induction atts as [|att atts IH]; [done|].
  simpl. unfold hasNodes at 1, protpathsNodes.
  destruct (Re.exec Pat.csvProtpaths (att_fullPath att)) as [attMatch|]; [|done].
  by destruct (_ && _).
Qed.

Lemma defaultPodOf_firstPod vlan atts :
  defaultPodOf vlan atts = vlanPodOr "pod-1" vlan atts.
Proof.
  unfold defaultPodOf, vlanPodOr, firstPod.
  induction atts as [|att atts IH]; [done|].
  simpl. by destruct (String.eqb (att_vlan att) vlan).
Qed.

(** C6, as amended: a denied path on which [/([\d()X]+)-([\d()X]+)-VPC/]
    matches with the nodes n1 and n2, and that has no exact normalised match
    among the attachments, gets the path [<pod>/protpaths-<n1>-<n2>/pathep-[<path>]];
    the pod is that of the first attachment in whose full path the pattern
    [/protpaths-([\d()X]+)-([\d()X]+)/] reads exactly the pair n1, n2, else
    that of the first attachment of the VLAN, else [pod-1]. *)
Theorem generateCSV_vpc_path (vlan epg : string) (pathAttachments : list PathAttachment)
    (pathName : string) (vpcMatch : list string) :
  lastWithKey (normalizePathName pathName) pathAttachments = None ->
  Re.exec Pat.csvVpc pathName = Some vpcMatch ->
  let node1 := Re.group 1 vpcMatch in
  let node2 := Re.group 2 vpcMatch in
  let pod := firstPod (hasNodes node1 node2) pathAttachments
               (vlanPodOr "pod-1" vlan pathAttachments) in
  csvRow vlan epg pathAttachments pathName
  = vlan +:+ "," +:+ epg +:+ "," +:+ vpcPath pod node1 node2 pathName.
Proof.
  intros Hnone Hvpc node1 node2 pod. unfold csvRow, csvPath.
  rewrite pathMap_lookup, Hnone, Hvpc.
  by rewrite podByNodes_firstPod, defaultPodOf_firstPod.
Qed.

Lemma generateCSV_vpc_path_witness :
  let near := mkPathAttachment "9" "EPG-VLAN9-a" "x" "pod-3/protpaths-425-4267/pathep-[x]" "pod-3" in
  let same := mkPathAttachment "9" "EPG-VLAN9-b" "y" "pod-4/protpaths-425-426/pathep-[y]" "pod-4" in
  csvRow "623" "epg-x" [near; same] "425-426-VPC-31-32-PG"
  = "623,epg-x,pod-4/protpaths-425-426/pathep-[425-426-VPC-31-32-PG]".
Proof.
  intros near same.
  apply (generateCSV_vpc_path "623" "epg-x" [near; same] "425-426-VPC-31-32-PG"
           ["425"; "426"]).
  - vm_compute. reflexivity.
  - vm_compute. reflexivity.
Defined.

(** C6 as it is worded fails: an attachment under [protpaths-425-4267]
    contains the text [protpaths-425-426], yet its pod is not taken for the
    path [425-426-VPC-31-32-PG]; the row falls back to [pod-1]. *)
Lemma generateCSV_vpc_path_not_by_containment :
  let near := mkPathAttachment "9" "EPG-VLAN9-a" "x" "pod-3/protpaths-425-4267/pathep-[x]" "pod-3" in
  let pathName := "425-426-VPC-31-32-PG" in
  lastWithKey (normalizePathName pathName) [near] = None
  /\ Re.exec Pat.csvVpc pathName = Some ["425"; "426"]
  /\ firstPod (containsProtpaths "425" "426") [near] (vlanPodOr "pod-1" "623" [near]) = "pod-3"
  /\ csvRow "623" "epg-x" [near] pathName
     = "623,epg-x,pod-1/protpaths-425-426/pathep-[425-426-VPC-31-32-PG]"
  /\ csvRow "623" "epg-x" [near] pathName
     <> "623" +:+ "," +:+ "epg-x" +:+ ","
        +:+ vpcPath (firstPod (containsProtpaths "425" "426") [near]
                       (vlanPodOr "pod-1" "623" [near]))
              "425" "426" pathName.
Proof.
  intros near pathName. repeat split; try (vm_compute; reflexivity).
  vm_compute. discriminate.
Qed.

(** ** The attachment parser *)

(** C7: the VPC line of the specification gives exactly one record, with
    VLAN 623, the path and pod of the line, and the full path spelled as in
    the line. *)
Theorem parseMoqueryOutput_vpc_line :
  parseMoqueryOutput
    "dn : uni/tn-T/ap-A/epg-EPG-VLAN623-x/rspathAtt-[topology/pod-2/protpaths-425-426/pathep-[425-426-VPC-31-32-PG]]"
  = [mkPathAttachment "623" "EPG-VLAN623-x" "425-426-VPC-31-32-PG"
       "pod-2/protpaths-425-426/pathep-[425-426-VPC-31-32-PG]" "pod-2"].
Proof. vm_compute. reflexivity. Qed.

(** The full path of the record is a piece of the line, character for
    character. *)
Lemma parseMoqueryOutput_vpc_line_verbatim :
  Str.includes "pod-2/protpaths-425-426/pathep-[425-426-VPC-31-32-PG]"
    "dn : uni/tn-T/ap-A/epg-EPG-VLAN623-x/rspathAtt-[topology/pod-2/protpaths-425-426/pathep-[425-426-VPC-31-32-PG]]"
  = true.
Proof. vm_compute. reflexivity. Qed.

(** ** What a successful match tells *)

Module ReFacts.
Import Re.

Lemma length_append (a b : string) :
  String.length (a +:+ b) = String.length a + String.length b.
Proof. induction a as [|c a IH]; simpl; [done|by rewrite IH]. Qed.

Lemma substring_prefix (a b : string) :
  substring 0 (String.length a) (a +:+ b) = a.
Proof.
  induction a as [|c a IH]; simpl.
  - by destruct b.
  - by rewrite IH.
Qed.

(** A quantified class that lets the match succeed has consumed a word of at
    least [lo] characters of the class in front of the place where the rest
    succeeded. *)
Lemma rep_inv {R : Type} (p : ascii -> bool) (k : option ascii -> string -> option R)
    (s : string) :
  forall lo hi prev r,
    rep p k lo hi prev s = Some r ->
    exists w s' prev',
      s = w +:+ s' /\ lo <= String.length w /\ Shape.allOf p w = true
      /\ k prev' s' = Some r.
Proof.
  induction s as [|c s IH]; intros lo hi prev r Hrep.
  - simpl in Hrep. destruct lo; [|done].
    exists "", "", prev. done.
  - simpl in Hrep.
    assert (Hstop : match lo with 0 => k prev (String c s) | S _ => None end = Some r ->
                    exists w s' prev',
                      String c s = w +:+ s' /\ lo <= String.length w
                      /\ Shape.allOf p w = true /\ k prev' s' = Some r).
    { destruct lo; [|done]. intros Hk. exists "", (String c s), prev. done. }
    destruct (p c && negb (bounded hi)) eqn:Htake; [|by apply Hstop].
    destruct (rep p k (Nat.pred lo) (option_map Nat.pred hi) (Some c) s) as [r'|] eqn:Hmore;
      [|by apply Hstop].
    injection Hrep as ->.
    apply IH in Hmore as (w & s' & prev' & -> & Hlen & Hall & Hk).
    apply andb_true_iff in Htake as [Hp _].
    exists (String c w), s', prev'. simpl. rewrite Hp, Hall.
    split; [done|]. split; [lia|done].
Qed.

(** A match found by the search is a match at some position. *)
Lemma search_inv (r : regex) (s : string) :
  forall prev cs,
    search r prev s = Some cs ->
    exists prev' s', matchHere r (mkPos prev' s' s' []) = Some cs.
Proof.
  induction s as [|c s IH]; intros prev cs Hs; simpl in Hs.
  - destruct (matchHere r _) eqn:Hm; [|done]. injection Hs as ->. eauto.
  - destruct (matchHere r _) eqn:Hm.
    + injection Hs as ->. eauto.
    + by apply IH in Hs.
Qed.

(** Literal text in front of a pattern moves the position and leaves the
    captures alone. *)
Lemma liti_inv (text : string) (r : regex) :
  forall st cs,
    matchHere (liti text ++ r) st = Some cs ->
    exists prev s, matchHere r (mkPos prev s (opened st) (caps st)) = Some cs.
Proof.
  induction text as [|c text IH]; intros st cs Hm; simpl in Hm.
  - destruct st as [b t o c0]. eauto.
  - apply rep_inv in Hm as (w & s' & prev' & _ & _ & _ & Hm).
    apply IH in Hm. done.
Qed.

(** A pattern that ends in [(\d+)] after literal text captures a group that
    is not empty. *)
Lemma literal_then_digits_group (text : string) (line : string) (m : list string) :
  exec (liti text ++ [GOpen; plus Pat.digit; GClose]) line = Some m ->
  group 1 m <> "".
Proof.
  intros Hexec. apply search_inv in Hexec as (prev & s & Hm).
  apply liti_inv in Hm as (prev1 & s1 & Hm). simpl in Hm.
  apply rep_inv in Hm as (w & s' & prev' & -> & Hlen & _ & Hm).
  injection Hm as <-. simpl.
  rewrite length_append.
  replace (String.length w + String.length s' - String.length s')
    with (String.length w) by lia.
  rewrite substring_prefix. destruct w; simpl in *; [lia|done].
Qed.

End ReFacts.

(** ** The endpoint parser *)

Lemma endpointLine_skip acc line :
  skipLine line = true -> endpointLine acc line = acc.
Proof. intros Hskip. unfold endpointLine. by rewrite Hskip. Qed.

Lemma setAdd_nonempty x s : setAdd x s <> [].
Proof.
  unfold setAdd. destruct (decide (x ∈ s)) as [Hin|_].
  - intros ->. by apply elem_of_nil in Hin.
  - by destruct s.
Qed.

(** The VLAN after a line: kept once set, else the group of the match. *)
Lemma endpointLine_vlan acc line :
  acc_vlan (endpointLine acc line)
  = if skipLine line then acc_vlan acc else
    match Re.exec Pat.vlan line with
    | Some vlanMatch =>
        if negb (Str.truthy (acc_vlan acc)) then Re.group 1 vlanMatch else acc_vlan acc
    | None => acc_vlan acc
    end.
Proof.
  unfold endpointLine. destruct (skipLine line); [done|].
  destruct (Re.exec Pat.nodeInterface line);
    destruct (firstVpcMatch Pat.vpcPatterns line); done.
Qed.

(** The path set after a line. *)
Lemma endpointLine_pathSet acc line :
  acc_pathSet (endpointLine acc line)
  = if skipLine line then acc_pathSet acc else
    let withInterface :=
      match Re.exec Pat.nodeInterface line with
      | Some nodeInterfaceMatch => setAdd (Re.group 2 nodeInterfaceMatch) (acc_pathSet acc)
      | None => acc_pathSet acc
      end in
    match firstVpcMatch Pat.vpcPatterns line with
    | Some vpcPath => setAdd vpcPath withInterface
    | None => withInterface
    end.
Proof.
  unfold endpointLine. destruct (skipLine line); [done|].
  destruct (Re.exec Pat.nodeInterface line);
    destruct (firstVpcMatch Pat.vpcPatterns line); done.
Qed.

Lemma endpointLine_vlan_empty acc line :
  acc_vlan (endpointLine acc line) = ""
  <-> acc_vlan acc = "" /\ givesVlan line = false.
Proof.
  rewrite endpointLine_vlan. unfold givesVlan.
  destruct (skipLine line); cbn [negb andb]; [tauto|].
  destruct (Re.exec Pat.vlan line) as [vlanMatch|] eqn:Hexec.
  - rewrite bool_decide_eq_true_2 by eauto.
    apply ReFacts.literal_then_digits_group in Hexec.
    destruct (acc_vlan acc); cbn [Str.truthy negb]; intuition congruence.
  - rewrite bool_decide_eq_false_2; [tauto|]. by intros [? ?].
Qed.

Lemma endpointLine_pathSet_empty acc line :
  acc_pathSet (endpointLine acc line) = []
  <-> acc_pathSet acc = [] /\ givesPath line = false.
Proof.
  rewrite endpointLine_pathSet. unfold givesPath.
  destruct (skipLine line); cbn [negb andb]; [tauto|].
  destruct (firstVpcMatch Pat.vpcPatterns line) as [vpcPath|]; cbn zeta.
  - rewrite (bool_decide_eq_true_2 (is_Some (Some vpcPath))) by eauto.
    rewrite orb_true_r. split; [|intuition congruence].
    intros Hadd. by apply setAdd_nonempty in Hadd.
  - rewrite (bool_decide_eq_false_2 (is_Some None)) by (by intros [? ?]).
    rewrite orb_false_r.
    destruct (Re.exec Pat.nodeInterface line) as [nodeInterfaceMatch|].
    + rewrite bool_decide_eq_true_2 by eauto. split; [|intuition congruence].
      intros Hadd. by apply setAdd_nonempty in Hadd.
    + rewrite bool_decide_eq_false_2; [tauto|]. by intros [? ?].
Qed.

Lemma foldl_endpointLine_vlan_empty lines acc :
  acc_vlan (foldl endpointLine acc lines) = ""
  <-> acc_vlan acc = "" /\ Forall (fun line => givesVlan line = false) lines.
Proof.
  revert acc. induction lines as [|line lines IH]; intros acc; simpl.
  - split; [intros H; by split|by intros [H _]].
  - rewrite IH, endpointLine_vlan_empty, Forall_cons. tauto.
Qed.

Lemma foldl_endpointLine_pathSet_empty lines acc :
  acc_pathSet (foldl endpointLine acc lines) = []
  <-> acc_pathSet acc = [] /\ Forall (fun line => givesPath line = false) lines.
Proof.
  revert acc. induction lines as [|line lines IH]; intros acc; simpl.
  - split; [intros H; by split|by intros [H _]].
  - rewrite IH, endpointLine_pathSet_empty, Forall_cons. tauto.
Qed.

Lemma endpointResult_none acc :
  endpointResult acc = None <-> acc_vlan acc = "" \/ acc_pathSet acc = [].
Proof.
  unfold endpointResult.
  destruct (acc_vlan acc), (acc_pathSet acc); simpl; intuition congruence.
Qed.

(** C4: [parseEndpointOutput] is a total function; it gives [null] exactly
    when no line that is walked gives a VLAN ([/vlan-(\d+)/i] never matches)
    or no line that is walked gives a path, and a record it returns has a
    VLAN that is not empty and a path list that is not empty. *)
Theorem parseEndpointOutput_null (input : string) :
  (parseEndpointOutput input = None
   <-> Forall (fun line => givesVlan line = false) (linesOf input)
       \/ Forall (fun line => givesPath line = false) (linesOf input))
  /\ match parseEndpointOutput input with
     | Some record => ep_vlan record <> "" /\ ep_paths record <> []
     | None => True
     end.
Proof.
  unfold parseEndpointOutput. fold (linesOf input). split.
  - rewrite endpointResult_none. unfold endpointLines.
    rewrite foldl_endpointLine_vlan_empty, foldl_endpointLine_pathSet_empty.
    simpl. tauto.
  - unfold endpointResult.
    destruct (acc_vlan _), (acc_pathSet _); simpl; done.
Qed.

(** The empty text is one of the inputs that give [null]. *)
Lemma parseEndpointOutput_empty : parseEndpointOutput "" = None.
Proof. vm_compute. reflexivity. Qed.

Lemma endpointLines_without (before after : list string) (line : string) :
  skipLine line = true ->
  endpointLines (before ++ line :: after) = endpointLines (before ++ after).
Proof.
  intros Hskip. unfold endpointLines. rewrite !foldl_app. simpl.
  by rewrite endpointLine_skip.
Qed.

(** C5, as amended: a blank line, and a line that contains both the text
    [Node] and the text [Interface] in exactly this spelling, is skipped: it
    leaves every variable of the loop as it was, and the parser returns what
    it returns on the other lines alone. *)
Theorem parseEndpointOutput_skips (input : string) (before after : list string)
    (line : string) :
  linesOf input = before ++ line :: after ->
  Str.trim line = ""
  \/ (Str.includes "Node" line = true /\ Str.includes "Interface" line = true) ->
  (forall acc, endpointLine acc line = acc)
  /\ parseEndpointOutput input = endpointResult (endpointLines (before ++ after)).
Proof.
  intros Hlines Hline.
  assert (Hskip : skipLine line = true).
  { unfold skipLine. destruct Hline as [->|[-> ->]]; [done|]. apply orb_true_r. }
  split.
  - intros acc. by apply endpointLine_skip.
  - unfold parseEndpointOutput. fold (linesOf input).
    by rewrite Hlines, endpointLines_without.
Qed.

Lemma parseEndpointOutput_skips_witness :
  let header := "Node      Interface      Encap" in
  let input := "303  eth1/5  10.0.0.1  vlan-713" +:+ newline +:+ header
               +:+ newline +:+ "vpc 425-426-VPC-31-32-PG  vlan-9" in
  (forall acc, endpointLine acc header = acc)
  /\ parseEndpointOutput input
     = endpointResult
         (endpointLines (["303  eth1/5  10.0.0.1  vlan-713"]
                         ++ ["vpc 425-426-VPC-31-32-PG  vlan-9"])).
Proof.
  intros header input.
  apply (parseEndpointOutput_skips input ["303  eth1/5  10.0.0.1  vlan-713"]
           ["vpc 425-426-VPC-31-32-PG  vlan-9"] header).
  - vm_compute. reflexivity.
  - right. split; vm_compute; reflexivity.
Defined.

(** C5 as it is worded fails: the header test reads [Node] and [Interface]
    with capitals only.  A line with both words in lower case is parsed like
    any other line and gives the VLAN, the address and the path. *)
Lemma parseEndpointOutput_lower_case_header_parsed :
  let line := "node interface 303  eth1/5  10.0.0.1  vlan-713" in
  headerAnyCase line = true
  /\ skipLine line = false
  /\ acc_vlan (endpointLine initAcc line) = "713"
  /\ acc_defaultIp (endpointLine initAcc line) = "10.0.0.1"
  /\ acc_pathSet (endpointLine initAcc line) = ["eth1/5"]
  /\ endpointLine initAcc line <> initAcc
  /\ option_map (fun record => (ep_vlan record, ep_ip record, ep_paths record))
       (parseEndpointOutput line)
     = Some ("713", "10.0.0.1", ["eth1/5"]).
Proof.
  intros line. repeat split; try (vm_compute; reflexivity).
  intros Hsame. apply (f_equal acc_vlan) in Hsame. vm_compute in Hsame. discriminate.
Qed.

(** ** Lines of the attachment parser are independent *)

Lemma moqueryLine_push (attachments : list PathAttachment) (line : string) :
  moqueryLine attachments line = attachments ++ moqueryLine [] line.
Proof.
  unfold moqueryLine.
  destruct (negb (Str.truthy (Str.trim line))); [by rewrite app_nil_r|].
  destruct (dnMatchOf line) as [[[dnMatch isVpc] protpathsIdentifier]|];
    [|by rewrite app_nil_r].
  destruct (_ && _); [done|by rewrite app_nil_r].
Qed.

Lemma foldl_moqueryLine (lines : list string) (attachments : list PathAttachment) :
  foldl moqueryLine attachments lines = attachments ++ moqueryLines lines.
Proof.
  unfold moqueryLines. revert attachments.
  induction lines as [|line lines IH]; intros attachments; simpl.
  - by rewrite app_nil_r.
  - rewrite IH, (IH (moqueryLine [] line)), (moqueryLine_push attachments).
    by rewrite <- app_assoc.
Qed.

Lemma moqueryLines_split (before after : list string) (line : string) :
  moqueryLines (before ++ line :: after)
  = moqueryLines before ++ moqueryLine [] line ++ moqueryLines after.
Proof.
  unfold moqueryLines at 1. rewrite foldl_app. simpl.
  rewrite foldl_moqueryLine. fold (moqueryLines before).
  by rewrite (moqueryLine_push (moqueryLines before)), <- app_assoc.
Qed.

Lemma moqueryLine_unmatched (attachments : list PathAttachment) (line : string) :
  Re.exec Pat.dnVpc line = None ->
  Re.exec Pat.dnSingle line = None ->
  moqueryLine attachments line = attachments.
Proof.
  intros Hvpc Hsingle. unfold moqueryLine, dnMatchOf. rewrite Hvpc, Hsingle.
  by destruct (negb _).
Qed.

(** ** The two export routines *)

(** C2 does not hold on the code.  For one denied path, one VLAN, one EPG
    label and one attachment list, [generateCSV] and the loop of
    [handleExportAllCSV] write different pods: the former falls back to the
    pod of the first attachment of the VLAN (and to [pod-1] without one), the
    latter to [pod-2]. *)
Lemma export_routines_differ :
  let pathAttachments :=
    parseMoqueryOutput
      "dn : uni/tn-T/ap-A/epg-EPG-VLAN713-x/rspathAtt-[topology/pod-3/paths-301/pathep-[eth1/9]]" in
  let results := [mkValidationResult "eth1/5" true false not_allowed] in
  let endpointData := mkEndpointData "713" "10.0.0.1" ["eth1/5"] "" ∅ ∅ in
  let entry := mkValidationEntry "1" "303  eth1/5  10.0.0.1  vlan-713" "EPG-VLAN713-x"
                 (Some results) (Some endpointData) in
  pathAttachments
    = [mkPathAttachment "713" "EPG-VLAN713-x" "eth1/9" "pod-3/paths-301/pathep-[eth1/9]" "pod-3"]
  /\ validateVlanAllowances endpointData pathAttachments = results
  /\ csvRows "713" "EPG-VLAN713-x" results pathAttachments
     = ["713,EPG-VLAN713-x,pod-3/paths-XXX/pathep-[eth1/5]"]
  /\ exportRows "713" "EPG-VLAN713-x" results pathAttachments
     = ["713,EPG-VLAN713-x,pod-2/paths-XXX/pathep-[eth1/5]"]
  /\ generateCSV "713" "EPG-VLAN713-x" results endpointData pathAttachments
     = "VLAN,EPG,PATH" +:+ newline +:+ "713,EPG-VLAN713-x,pod-3/paths-XXX/pathep-[eth1/5]"
  /\ handleExportAllCSV [entry] pathAttachments
     = inr ("VLAN,EPG,PATH" +:+ newline +:+ "713,EPG-VLAN713-x,pod-2/paths-XXX/pathep-[eth1/5]").
Proof.
  intros pathAttachments results endpointData entry.
  repeat split; vm_compute; reflexivity.
Qed.

(** The literal fallbacks differ as well: without any attachment of the
    VLAN, [generateCSV] writes [pod-1] where the loop of [App.tsx] writes
    [pod-2]. *)
Lemma export_routines_default_pods :
  let other := mkPathAttachment "100" "EPG-VLAN100-a" "eth1/9" "pod-3/paths-301/pathep-[eth1/9]" "pod-3" in
  let results := [mkValidationResult "eth1/5" true false not_allowed] in
  csvRows "713" "epg-x" results [other] = ["713,epg-x,pod-1/paths-XXX/pathep-[eth1/5]"]
  /\ exportRows "713" "epg-x" results [other] = ["713,epg-x,pod-2/paths-XXX/pathep-[eth1/5]"].
Proof. intros other results. split; vm_compute; reflexivity. Qed.

(** ** White space around a line does not change what the patterns read *)

Module TrimFacts.
Import Re Shape ReFacts.

Lemma isSpace_spaces (c : ascii) : Char.isSpace c = true -> In c spaces.
Proof.
  destruct c as [[] [] [] [] [] [] [] []]; intros Hspace; try discriminate Hspace;
    vm_compute; tauto.
Qed.

Lemma rejectsSpace_spec (p : ascii -> bool) (c : ascii) :
  rejectsSpace p = true -> Char.isSpace c = true -> p c = false.
Proof.
  unfold rejectsSpace. rewrite forallb_forall. intros Hall Hspace.
  apply isSpace_spaces, Hall in Hspace. by apply negb_true_iff.
Qed.

Lemma append_cons (c : ascii) (a b : string) :
  String c a +:+ b = String c (a +:+ b).
Proof. done. Qed.

Lemma allOf_append (p : ascii -> bool) (a b : string) :
  allOf p (a +:+ b) = allOf p a && allOf p b.
Proof.
  induction a as [|c a IH]; [done|].
  rewrite append_cons. simpl. by rewrite IH, andb_assoc.
Qed.

Lemma append_empty_r (a : string) : a +:+ "" = a.
Proof. induction a as [|c a IH]; [done|]. by rewrite append_cons, IH. Qed.

Lemma append_assoc (a b c : string) : (a +:+ b) +:+ c = a +:+ (b +:+ c).
Proof. induction a as [|x a IH]; [done|]. by rewrite !append_cons, IH. Qed.

Lemma substring_append (n : nat) (a b : string) :
  n <= String.length a -> substring 0 n (a +:+ b) = substring 0 n a.
Proof.
  revert n. induction a as [|c a IH]; intros n Hn; simpl in Hn.
  - assert (n = 0) as -> by lia. by destruct b.
  - rewrite append_cons. destruct n as [|n]; [done|]. simpl. rewrite IH; [done|lia].
Qed.

(** A pattern that needs ink finds nothing at a position followed by white
    space only. *)
Lemma matchHere_blank (r : regex) :
  needsInk r = true ->
  forall st, blank (rest st) = true -> matchHere r st = None.
Proof.
  induction r as [|i r IH]; intros Hink st Hblank; [done|].
  destruct i as [p lo hi| | | |]; simpl in *.
  - destruct (rep p _ lo hi (before st) (rest st)) as [cs|] eqn:Hrep; [|done].
    apply rep_inv in Hrep as (w & s' & prev' & Hrest & Hlen & Hall & Hk).
    rewrite Hrest in Hblank. unfold blank in Hblank.
    rewrite allOf_append in Hblank. apply andb_true_iff in Hblank as [Hw Hs'].
    apply orb_true_iff in Hink as [Hhere|Hlater].
    + apply andb_true_iff in Hhere as [Hreject Hlo].
      assert (Hpos : 1 <= lo) by (destruct lo; [done|lia]).
      destruct w as [|c w]; simpl in *; [lia|].
      apply andb_true_iff in Hw as [Hc _]. apply andb_true_iff in Hall as [Hp _].
      by rewrite (rejectsSpace_spec p c Hreject Hc) in Hp.
    + by rewrite (IH Hlater (mkPos prev' s' (opened st) (caps st)) Hs') in Hk.
  - by apply IH.
  - by apply IH.
  - destruct (xorb _ _); [by apply IH|done].
  - destruct (before st); [done|by apply IH].
Qed.

Lemma search_blank (r : regex) (s : string) :
  needsInk r = true -> blank s = true ->
  forall prev, search r prev s = None.
Proof.
  intros Hink. induction s as [|c s IH]; intros Hblank prev; simpl.
  - by rewrite matchHere_blank.
  - rewrite matchHere_blank by done.
    apply andb_true_iff in Hblank as [_ Hblank]. by apply IH.
Qed.

(** A class in front of white space: when it rejects white space, or when
    the rest of the pattern fails inside white space, it stops where the
    text stops. *)
Lemma rep_blank {R : Type} (p : ascii -> bool) (k : option ascii -> string -> option R)
    (ws : string) (lo : nat) (hi : option nat) (prev : option ascii) :
  blank ws = true ->
  rejectsSpace p = true
  \/ (forall prev' s', blank s' = true -> k prev' s' = None) ->
  rep p k lo hi prev ws = match lo with 0 => k prev ws | S _ => None end.
Proof.
  intros Hblank Hcase. destruct ws as [|c ws]; [done|]. simpl.
  apply andb_true_iff in Hblank as [Hc Hws].
  destruct (p c && negb (bounded hi)) eqn:Htake; [|done].
  apply andb_true_iff in Htake as [Hp _].
  destruct Hcase as [Hreject|Hfail].
  - by rewrite (rejectsSpace_spec p c Hreject Hc) in Hp.
  - destruct (rep p k _ _ (Some c) ws) as [r|] eqn:Hrep; [|done].
    apply rep_inv in Hrep as (w & s' & prev' & -> & _ & _ & Hk).
    unfold blank in Hws. rewrite allOf_append in Hws.
    apply andb_true_iff in Hws as [_ Hs'].
    by rewrite (Hfail prev' s' Hs') in Hk.
Qed.

Lemma rep_append {R : Type} (p : ascii -> bool)
    (k1 k2 : option ascii -> string -> option R) (ws : string) :
  blank ws = true ->
  (forall prev t, k1 prev (t +:+ ws) = k2 prev t) ->
  rejectsSpace p = true
  \/ (forall prev' s', blank s' = true -> k1 prev' s' = None) ->
  forall t lo hi prev, rep p k1 lo hi prev (t +:+ ws) = rep p k2 lo hi prev t.
Proof.
  intros Hblank Hsame Hcase. induction t as [|c t IH]; intros lo hi prev.
  - change ("" +:+ ws) with ws. rewrite rep_blank by done.
    simpl. destruct lo; [|done]. apply (Hsame prev "").
  - change (String c t +:+ ws) with (String c (t +:+ ws)). simpl.
    rewrite IH. change (String c (t +:+ ws)) with (String c t +:+ ws).
    by rewrite Hsame.
Qed.

(** White space after the text does not change a match of a pattern that
    is safe against it. *)
Lemma matchHere_append (r : regex) (ws : string) :
  trimSafe r = true -> blank ws = true ->
  forall prev t o cs,
    matchHere r (mkPos prev (t +:+ ws) (o +:+ ws) cs) = matchHere r (mkPos prev t o cs).
Proof.
  intros Hsafe Hblank. induction r as [|i r IH]; intros prev t o cs; [done|].
  destruct i as [p lo hi| | | |]; simpl in *.
  - apply andb_true_iff in Hsafe as [Hcase Hsafe].
    apply rep_append; [done| |].
    + intros prev' t'. by apply IH.
    + apply orb_true_iff in Hcase as [Hreject|Hink]; [by left|right].
      intros prev' s' Hs'. by apply matchHere_blank.
  - by apply IH.
  - rewrite !length_append.
    replace (String.length o + String.length ws - (String.length t + String.length ws))
      with (String.length o - String.length t) by lia.
    rewrite substring_append by lia. by apply IH.
  - done.
  - destruct prev; [done|by apply IH].
Qed.

Lemma search_append (r : regex) (ws : string) :
  trimSafe r = true -> needsInk r = true -> blank ws = true ->
  forall t prev, search r prev (t +:+ ws) = search r prev t.
Proof.
  intros Hsafe Hink Hblank. induction t as [|c t IH]; intros prev.
  - change ("" +:+ ws) with ws. rewrite search_blank by done.
    simpl. by rewrite matchHere_blank.
  - change (String c t +:+ ws) with (String c (t +:+ ws)). simpl.
    change (String c (t +:+ ws)) with (String c t +:+ ws).
    rewrite matchHere_append by done. by rewrite IH.
Qed.

(** White space in front of the text: a pattern that starts with ink does
    not match on it, and does not look at what comes before a position. *)
Lemma matchHere_before (r : regex) (prev1 prev2 : option ascii) (s o : string)
    (cs : list string) :
  headInk r = true ->
  matchHere r (mkPos prev1 s o cs) = matchHere r (mkPos prev2 s o cs).
Proof.
  destruct r as [|[p lo hi| | | |] r]; try done. simpl.
  intros Hhead. apply andb_true_iff in Hhead as [_ Hlo]. assert (Hpos : 1 <= lo) by (destruct lo; [done|lia]).
  destruct lo as [|lo]; [lia|]. by destruct s.
Qed.

Lemma search_before (r : regex) (prev1 prev2 : option ascii) (s : string) :
  headInk r = true -> search r prev1 s = search r prev2 s.
Proof.
  intros Hhead. destruct s; simpl; by rewrite (matchHere_before r prev1 prev2).
Qed.

Lemma search_space (r : regex) (prev : option ascii) (c : ascii) (s : string) :
  headInk r = true -> Char.isSpace c = true ->
  search r prev (String c s) = search r prev s.
Proof.
  intros Hhead Hc. simpl.
  assert (matchHere r (mkPos prev (String c s) (String c s) []) = None) as ->.
  { destruct r as [|[p lo hi| | | |] r]; try done. simpl in *.
    apply andb_true_iff in Hhead as [Hreject Hlo]. assert (Hpos : 1 <= lo) by (destruct lo; [done|lia]).
    rewrite (rejectsSpace_spec p c Hreject Hc). simpl.
    destruct lo; [lia|done]. }
  by apply search_before.
Qed.

Lemma exec_space (r : regex) (c : ascii) (s : string) :
  headInk r = true -> Char.isSpace c = true -> exec r (String c s) = exec r s.
Proof. apply search_space. Qed.

Lemma exec_append (r : regex) (t ws : string) :
  trimSafe r = true -> needsInk r = true -> blank ws = true ->
  exec r (t +:+ ws) = exec r t.
Proof. intros. by apply search_append. Qed.

End TrimFacts.

(** ** [trim], [split] and [join] *)

Module StrFacts.
Import Str Shape TrimFacts.

Lemma trimStart_blank (ws : string) : blank ws = true -> trimStart ws = "".
Proof.
  induction ws as [|c ws IH]; [done|]. simpl. intros Hblank.
  apply andb_true_iff in Hblank as [-> Hws]. by apply IH.
Qed.

Lemma trimEnd_blank (ws : string) : blank ws = true -> trimEnd ws = "".
Proof.
  induction ws as [|c ws IH]; [done|]. simpl. intros Hblank.
  apply andb_true_iff in Hblank as [-> Hws]. by rewrite IH.
Qed.

Lemma trim_blank (ws : string) : blank ws = true -> trim ws = "".
Proof. intros Hblank. unfold trim. by rewrite trimStart_blank. Qed.

Lemma trim_space (c : ascii) (s : string) :
  Char.isSpace c = true -> trim (String c s) = trim s.
Proof. intros Hc. unfold trim. simpl. by rewrite Hc. Qed.

Lemma trimEnd_append (x ws : string) :
  blank ws = true -> trimEnd (x +:+ ws) = trimEnd x.
Proof.
  intros Hblank. induction x as [|c x IH].
  - by apply trimEnd_blank.
  - rewrite append_cons. simpl. by rewrite IH.
Qed.

Lemma trimStart_append (x ws : string) :
  blank ws = true ->
  exists ws', blank ws' = true /\ trimStart (x +:+ ws) = trimStart x +:+ ws'.
Proof.
  intros Hblank. induction x as [|c x IH].
  - exists "". split; [done|]. by apply trimStart_blank.
  - rewrite append_cons. simpl. destruct (Char.isSpace c); [done|].
    exists ws. done.
Qed.

Lemma trim_append (x ws : string) : blank ws = true -> trim (x +:+ ws) = trim x.
Proof.
  intros Hblank. unfold trim.
  destruct (trimStart_append x ws Hblank) as (ws' & Hblank' & ->).
  by apply trimEnd_append.
Qed.

(** What [trimEnd] cuts off is white space. *)
Lemma trimEnd_cut (s : string) :
  exists ws, blank ws = true /\ s = trimEnd s +:+ ws.
Proof.
  induction s as [|c s (ws & Hblank & Hs)].
  - by exists "".
  - simpl. destruct (trimEnd s) as [|d t] eqn:Hend.
    + change ("" +:+ ws) with ws in Hs. subst ws.
      destruct (Char.isSpace c) eqn:Hc.
      * exists (String c s). split; [|done]. unfold blank in *. simpl. by rewrite Hc.
      * exists s. done.
    + exists ws. split; [done|]. rewrite append_cons. by rewrite <- Hs.
Qed.

Lemma splitLines_nonempty (s : string) : splitLines s <> [].
Proof.
  destruct s as [|c s]; [done|]. simpl.
  destruct (Ascii.eqb c "010"); [done|]. by destruct (splitLines s).
Qed.

(** The lines of white space are white space. *)
Lemma splitLines_blank (ws : string) :
  blank ws = true -> Forall (fun line => blank line = true) (splitLines ws).
Proof.
  induction ws as [|c ws IH]; intros Hblank.
  - by apply Forall_cons.
  - apply andb_true_iff in Hblank as [Hc Hws]. simpl.
    destruct (Ascii.eqb c "010").
    + apply Forall_cons. split; [done|by apply IH].
    + specialize (IH Hws). destruct (splitLines ws) as [|h t].
      * apply Forall_cons. split; [|done]. unfold blank. simpl. by rewrite Hc.
      * apply Forall_cons in IH as [Hh Ht]. apply Forall_cons. split; [|done].
        unfold blank in *. simpl. by rewrite Hc.
Qed.

(** White space after a text: the lines are those of the text, with white
    space after the last one, and lines of white space. *)
Lemma splitLines_append_blank (x ws : string) :
  blank ws = true ->
  exists common last u blanks,
    splitLines x = common ++ [last]
    /\ splitLines (x +:+ ws) = common ++ [last +:+ u] ++ blanks
    /\ blank u = true
    /\ Forall (fun line => blank line = true) blanks.
Proof.
  intros Hblank. induction x as [|c x (common & last & u & blanks & Hx & Hxws & Hu & Hblanks)].
  - change ("" +:+ ws) with ws.
    pose proof (splitLines_blank ws Hblank) as Hall.
    destruct (splitLines ws) as [|u blanks] eqn:Hsplit; [by apply splitLines_nonempty in Hsplit|].
    apply Forall_cons in Hall as [Hu Hblanks].
    exists [], "", u, blanks. done.
  - rewrite append_cons. simpl. rewrite Hx, Hxws.
    destruct (Ascii.eqb c "010").
    + exists ("" :: common), last, u, blanks. done.
    + destruct common as [|h common]; simpl.
      * exists [], (String c last), u, blanks. done.
      * exists (String c h :: common), last, u, blanks. done.
Qed.

(** [split] undoes [join] on lines without a line feed. *)
Lemma splitLines_oneLine (line : string) :
  oneLine line = true -> splitLines line = [line].
Proof.
  induction line as [|c line IH]; [done|]. unfold oneLine. simpl. intros Hline.
  apply andb_true_iff in Hline as [Hc Hline]. apply negb_true_iff in Hc.
  by rewrite Hc, IH.
Qed.

Lemma splitLines_line_then (line more : string) :
  oneLine line = true ->
  splitLines (line +:+ String "010" more) = line :: splitLines more.
Proof.
  induction line as [|c line IH]; [done|]. unfold oneLine. simpl. intros Hline.
  apply andb_true_iff in Hline as [Hc Hline]. apply negb_true_iff in Hc.
  rewrite ?append_cons. simpl. by rewrite Hc, IH.
Qed.

Lemma splitLines_joinLines (lines : list string) :
  lines <> [] ->
  Forall (fun line => oneLine line = true) lines ->
  splitLines (joinLines lines) = lines.
Proof.
  induction lines as [|line lines IH]; [done|]. intros _ Hall.
  apply Forall_cons in Hall as [Hline Hlines].
  destruct lines as [|next lines].
  - by apply splitLines_oneLine.
  - change (joinLines (line :: next :: lines))
      with (line +:+ String "010" (joinLines (next :: lines))).
    rewrite splitLines_line_then by done. by rewrite IH.
Qed.

End StrFacts.

(** ** The attachment parser reads a blob line by line *)

Section MoqueryLines.
Import Shape TrimFacts StrFacts.

Lemma moqueryLines_cons (line : string) (lines : list string) :
  moqueryLines (line :: lines) = moqueryLine [] line ++ moqueryLines lines.
Proof. apply (moqueryLines_split [] lines line). Qed.

Lemma moqueryLines_app (before after : list string) :
  moqueryLines (before ++ after) = moqueryLines before ++ moqueryLines after.
Proof.
  unfold moqueryLines at 1. rewrite foldl_app. apply foldl_moqueryLine.
Qed.

Lemma moqueryLine_blank (attachments : list PathAttachment) (line : string) :
  blank line = true -> moqueryLine attachments line = attachments.
Proof. intros Hblank. unfold moqueryLine. by rewrite trim_blank. Qed.

Lemma moqueryLines_blank (lines : list string) :
  Forall (fun line => blank line = true) lines -> moqueryLines lines = [].
Proof.
  induction lines as [|line lines IH]; [done|]. intros Hall.
  apply Forall_cons in Hall as [Hline Hlines].
  by rewrite moqueryLines_cons, moqueryLine_blank, IH.
Qed.

Lemma dn_patterns_shape :
  headInk Pat.dnVpc = true /\ headInk Pat.dnSingle = true
  /\ trimSafe Pat.dnVpc = true /\ trimSafe Pat.dnSingle = true
  /\ needsInk Pat.dnVpc = true /\ needsInk Pat.dnSingle = true.
Proof. repeat split; vm_compute; reflexivity. Qed.

(** White space in front of a line does not change its record. *)
Lemma moqueryLine_space (attachments : list PathAttachment) (c : ascii) (line : string) :
  Char.isSpace c = true ->
  moqueryLine attachments (String c line) = moqueryLine attachments line.
Proof.
  intros Hc. destruct dn_patterns_shape as (Hvpc & Hsingle & _).
  unfold moqueryLine, dnMatchOf.
  by rewrite trim_space, !exec_space.
Qed.

(** White space after a line does not change its record. *)
Lemma moqueryLine_append (attachments : list PathAttachment) (line ws : string) :
  blank ws = true ->
  moqueryLine attachments (line +:+ ws) = moqueryLine attachments line.
Proof.
  intros Hblank.
  destruct dn_patterns_shape as (_ & _ & Hvpc & Hsingle & Hvpc' & Hsingle').
  unfold moqueryLine, dnMatchOf.
  by rewrite trim_append, !exec_append.
Qed.

Lemma moqueryLines_space (c : ascii) (s : string) :
  Char.isSpace c = true ->
  moqueryLines (Str.splitLines (String c s)) = moqueryLines (Str.splitLines s).
Proof.
  intros Hc. simpl. destruct (Ascii.eqb c "010").
  - by rewrite moqueryLines_cons, moqueryLine_blank.
  - destruct (Str.splitLines s) as [|h t] eqn:Hsplit;
      [by apply splitLines_nonempty in Hsplit|].
    by rewrite !moqueryLines_cons, moqueryLine_space.
Qed.

Lemma moqueryLines_trimStart (s : string) :
  moqueryLines (Str.splitLines (Str.trimStart s)) = moqueryLines (Str.splitLines s).
Proof.
  induction s as [|c s IH]; [done|].
  cbn [Str.trimStart]. destruct (Char.isSpace c) eqn:Hc; [|done].
  by rewrite IH, moqueryLines_space.
Qed.

Lemma moqueryLines_append_blank (x ws : string) :
  blank ws = true ->
  moqueryLines (Str.splitLines (x +:+ ws)) = moqueryLines (Str.splitLines x).
Proof.
  intros Hblank.
  destruct (splitLines_append_blank x ws Hblank)
    as (common & last & u & blanks & -> & -> & Hu & Hblanks).
  rewrite !moqueryLines_app, !moqueryLines_cons.
  rewrite moqueryLine_append, (moqueryLines_blank blanks) by done.
  by rewrite app_nil_r.
Qed.

(** [trim] is invisible to the attachment parser: the records of a blob are
    those of its lines as they stand. *)
Lemma parseMoqueryOutput_lines (input : string) :
  parseMoqueryOutput input = moqueryLines (Str.splitLines input).
Proof.
  unfold parseMoqueryOutput, Str.trim.
  destruct (trimEnd_cut (Str.trimStart input)) as (ws & Hblank & Hcut).
  rewrite <- (moqueryLines_trimStart input).
  rewrite Hcut at 2. by rewrite moqueryLines_append_blank.
Qed.

End MoqueryLines.

(** C8: [parseMoqueryOutput] is a total function that handles the lines of
    a blob one by one.  The records of a blob are those of the lines before
    a line, then those of the line, then those of the lines after it; a line
    on which neither distinguished-name pattern matches gives no record; so
    with such a line in the place of any line of the blob, the records of
    the other lines stay as they were, in the same order. *)
Theorem parseMoqueryOutput_line_by_line (before after : list string) (line bad : string) :
  Forall (fun l => Shape.oneLine l = true) (before ++ line :: bad :: after) ->
  Re.exec Pat.dnVpc bad = None ->
  Re.exec Pat.dnSingle bad = None ->
  parseMoqueryOutput (Str.joinLines (before ++ line :: after))
    = moqueryLines before ++ moqueryLine [] line ++ moqueryLines after
  /\ moqueryLine [] bad = []
  /\ parseMoqueryOutput (Str.joinLines (before ++ bad :: after))
     = moqueryLines before ++ moqueryLines after.
Proof.
  intros Hlines Hvpc Hsingle.
  apply Forall_app in Hlines as [Hbefore Hrest].
  apply Forall_cons in Hrest as [Hline Hrest].
  apply Forall_cons in Hrest as [Hbad Hafter].
  assert (Hnone : moqueryLine [] bad = []) by (by apply moqueryLine_unmatched).
  rewrite !parseMoqueryOutput_lines.
  rewrite !StrFacts.splitLines_joinLines.
  - by rewrite !moqueryLines_split, Hnone.
  - by destruct before.
  - apply Forall_app. split; [done|]. by apply Forall_cons.
  - by destruct before.
  - apply Forall_app. split; [done|]. by apply Forall_cons.
Qed.

Lemma parseMoqueryOutput_line_by_line_witness :
  let first := "  dn : uni/tn-T/ap-A/epg-EPG-VLAN623-x/rspathAtt-[topology/pod-2/protpaths-425-426/pathep-[425-426-VPC-31-32-PG]]" in
  let second := "dn : uni/tn-T/ap-A/epg-EPG-VLAN623-x/rspathAtt-[topology/pod-2/paths-303/pathep-[eth1/5]]" in
  let third := "dn : uni/tn-T/ap-A/epg-EPG-VLAN700-y/rspathAtt-[topology/pod-1/paths-3(X)/pathep-[eth1/7]]  " in
  let bad := "dn : uni/tn-T/ap-A/epg-EPG-VLAN623-x/rspathAtt-[topology/pod-2/paths-303/pathep-[eth1/5" in
  parseMoqueryOutput (Str.joinLines ([first] ++ second :: [third]))
    = moqueryLines [first] ++ moqueryLine [] second ++ moqueryLines [third]
  /\ moqueryLine [] bad = []
  /\ parseMoqueryOutput (Str.joinLines ([first] ++ bad :: [third]))
     = moqueryLines [first] ++ moqueryLines [third].
Proof.
  intros first second third bad.
  apply (parseMoqueryOutput_line_by_line [first] [third] second bad).
  - repeat (apply Forall_cons_2; [vm_compute; reflexivity|]). apply Forall_nil_2.
  - vm_compute. reflexivity.
  - vm_compute. reflexivity.
Defined.

(** * Further properties of the parsers, the validator and the handlers *)

(** ** The record of the endpoint parser *)

Section EndpointRecord.
Import Shape ReFacts.

(** An invariant of the loop over the lines holds at its end. *)
Lemma endpointLines_invariant (P : EndpointAcc -> Prop) (lines : list string) :
  P initAcc ->
  (forall acc line, P acc -> P (endpointLine acc line)) ->
  P (endpointLines lines).
Proof.
  intros Hinit Hstep. unfold endpointLines.
  generalize initAcc Hinit. induction lines as [|line lines IH]; intros acc Hacc; [done|].
  simpl. by apply IH, Hstep.
Qed.

Lemma endpointResult_some acc record :
  endpointResult acc = Some record ->
  ep_vlan record = acc_vlan acc /\ ep_ip record = acc_defaultIp acc
  /\ ep_paths record = acc_pathSet acc /\ ep_pod record = ""
  /\ ep_pathsWithNodes record = acc_pathNodeMap acc
  /\ ep_pathsWithIPs record = acc_pathIPMap acc.
Proof.
  unfold endpointResult. destruct (_ && _); [|done]. by intros [= <-].
Qed.

Lemma setAdd_NoDup x s : NoDup s -> NoDup (setAdd x s).
Proof.
  intros Hs. unfold setAdd. destruct (decide (x ∈ s)) as [Hin|Hout]; [done|].
  apply NoDup_app. split; [done|]. split.
  - intros y Hy Hy'. apply list_elem_of_singleton in Hy'. by subst y.
  - apply NoDup_singleton.
Qed.

Lemma setAdd_elem x y s : y ∈ setAdd x s <-> y = x \/ y ∈ s.
Proof.
  unfold setAdd. destruct (decide (x ∈ s)) as [Hin|Hout].
  - split; [by right|]. by intros [->|?].
  - rewrite elem_of_app, list_elem_of_singleton. tauto.
Qed.

Lemma endpointLine_NoDup acc line :
  NoDup (acc_pathSet acc) -> NoDup (acc_pathSet (endpointLine acc line)).
Proof.
  intros Hacc. rewrite endpointLine_pathSet.
  destruct (skipLine line); [done|]. cbn zeta.
  destruct (firstVpcMatch Pat.vpcPatterns line), (Re.exec Pat.nodeInterface line);
    repeat apply setAdd_NoDup; done.
Qed.

(** X1: the path list of a record of [parseEndpointOutput] has no
    duplicates. *)
Theorem parseEndpointOutput_paths_NoDup (input : string) (record : EndpointData) :
  parseEndpointOutput input = Some record -> NoDup (ep_paths record).
Proof.
  unfold parseEndpointOutput. intros Hrecord.
  apply endpointResult_some in Hrecord as (_ & _ & -> & _).
  apply (endpointLines_invariant (fun acc => NoDup (acc_pathSet acc))).
  - apply NoDup_nil_2.
  - intros acc line. apply endpointLine_NoDup.
Qed.

Lemma parseEndpointOutput_paths_NoDup_witness :
  let input := "303  eth1/5  10.0.0.1  vlan-713" +:+ newline
               +:+ "304  eth1/5  10.0.0.1  vlan-713" +:+ newline
               +:+ "vpc 425-426-VPC-31-32-PG  vlan-713" in
  NoDup ["eth1/5"; "425-426-VPC-31-32-PG"].
Proof.
  intros input.
  apply (parseEndpointOutput_paths_NoDup input
           (mkEndpointData "713" "10.0.0.1" ["eth1/5"; "425-426-VPC-31-32-PG"] ""
              {["eth1/5" := "304"]} {["eth1/5" := "10.0.0.1"]})).
  vm_compute. reflexivity.
Defined.

Lemma endpointLine_keysInSet acc line :
  keysInSet acc -> keysInSet (endpointLine acc line).
Proof.
  intros [Hnodes Hips]. unfold endpointLine.
  destruct (skipLine line); [done|].
  destruct (Re.exec Pat.nodeInterface line) as [nodeInterfaceMatch|];
    destruct (firstVpcMatch Pat.vpcPatterns line) as [vpcPath|];
    destruct (Str.truthy (currentLineIP line));
    split; simpl; intros k Hk;
    repeat (apply lookup_insert_is_Some' in Hk as [Hk|Hk]; [subst k|]);
    rewrite ?setAdd_elem; auto.
Qed.

(** X2: in a record of [parseEndpointOutput], every path that has a node in
    [pathsWithNodes] or an address in [pathsWithIPs] is a path of [paths]. *)
Theorem parseEndpointOutput_maps_over_paths (input : string) (record : EndpointData)
    (path : string) :
  parseEndpointOutput input = Some record ->
  is_Some (ep_pathsWithNodes record !! path) \/ is_Some (ep_pathsWithIPs record !! path) ->
  path ∈ ep_paths record.
Proof.
  unfold parseEndpointOutput. intros Hrecord.
  apply endpointResult_some in Hrecord as (_ & _ & -> & _ & -> & ->).
  intros Hkey.
  destruct (endpointLines_invariant keysInSet (linesOf input)) as [Hnodes Hips].
  - split; intros k Hk; simpl in Hk; rewrite lookup_empty in Hk; by destruct Hk.
  - apply endpointLine_keysInSet.
  - destruct Hkey; [by apply Hnodes|by apply Hips].
Qed.

Lemma parseEndpointOutput_maps_over_paths_witness :
  let input := "303  eth1/5  10.0.0.1  vlan-713" +:+ newline
               +:+ "vpc 425-426-VPC-31-32-PG  10.0.0.2  vlan-713" in
  "425-426-VPC-31-32-PG" ∈ ["eth1/5"; "425-426-VPC-31-32-PG"].
Proof.
  intros input.
  apply (parseEndpointOutput_maps_over_paths input
           (mkEndpointData "713" "10.0.0.1" ["eth1/5"; "425-426-VPC-31-32-PG"] ""
              {["eth1/5" := "303"]}
              (<["425-426-VPC-31-32-PG" := "10.0.0.2"]> {["eth1/5" := "10.0.0.1"]}))
           "425-426-VPC-31-32-PG").
  - vm_compute. reflexivity.
  - right. vm_compute. eauto.
Defined.

(** A pattern that ends in [(\d+)] after literal text captures digits. *)
Lemma literal_then_digits_are_digits (text : string) (line : string) (m : list string) :
  Re.exec (Re.liti text ++ [Re.GOpen; Re.plus Pat.digit; Re.GClose]) line = Some m ->
  digits (Re.group 1 m) = true.
Proof.
  intros Hexec. apply search_inv in Hexec as (prev & s & Hm).
  apply liti_inv in Hm as (prev1 & s1 & Hm). simpl in Hm.
  apply rep_inv in Hm as (w & s' & prev' & -> & _ & Hall & Hm).
  injection Hm as <-. simpl.
  rewrite length_append.
  replace (String.length w + String.length s' - String.length s')
    with (String.length w) by lia.
  by rewrite substring_prefix.
Qed.

Lemma endpointLine_vlan_digits acc line :
  digits (acc_vlan acc) = true -> digits (acc_vlan (endpointLine acc line)) = true.
Proof.
  intros Hacc. rewrite endpointLine_vlan.
  destruct (skipLine line); [done|].
  destruct (Re.exec Pat.vlan line) as [vlanMatch|] eqn:Hexec; [|done].
  destruct (negb _); [|done].
  by apply literal_then_digits_are_digits in Hexec.
Qed.

(** X3: the VLAN of a record of [parseEndpointOutput] is a string of decimal
    digits, and its pod is the empty string. *)
Theorem parseEndpointOutput_vlan_digits (input : string) (record : EndpointData) :
  parseEndpointOutput input = Some record ->
  digits (ep_vlan record) = true /\ ep_pod record = "".
Proof.
  unfold parseEndpointOutput. intros Hrecord.
  apply endpointResult_some in Hrecord as (-> & _ & _ & -> & _).
  split; [|done].
  apply (endpointLines_invariant (fun acc => digits (acc_vlan acc) = true)); [done|].
  intros acc line. apply endpointLine_vlan_digits.
Qed.

Lemma parseEndpointOutput_vlan_digits_witness :
  digits "713" = true /\ "" = "".
Proof.
  apply (parseEndpointOutput_vlan_digits "303  eth1/5  10.0.0.1  VLAN-713 vlan-x"
           (mkEndpointData "713" "10.0.0.1" ["eth1/5"] ""
              {["eth1/5" := "303"]} {["eth1/5" := "10.0.0.1"]})).
  vm_compute. reflexivity.
Defined.

Lemma truthy_digits_group line :
  givesVlan line = true -> Str.truthy (vlanOfLine line) = true.
Proof.
  unfold givesVlan, vlanOfLine. intros Hgives.
  apply andb_true_iff in Hgives as [_ Hmatch].
  apply bool_decide_eq_true in Hmatch as [m Hm]. rewrite Hm.
  apply literal_then_digits_group in Hm. by destruct (Re.group 1 m).
Qed.

Lemma endpointLine_vlan_first acc line :
  acc_vlan (endpointLine acc line)
  = if Str.truthy (acc_vlan acc) then acc_vlan acc
    else if givesVlan line then vlanOfLine line else "".
Proof.
  rewrite endpointLine_vlan. unfold givesVlan, vlanOfLine.
  destruct (skipLine line); cbn [negb andb].
  - by destruct (acc_vlan acc).
  - destruct (Re.exec Pat.vlan line) as [m|].
    + rewrite bool_decide_eq_true_2 by eauto. by destruct (acc_vlan acc).
    + rewrite bool_decide_eq_false_2 by (by intros [? ?]). by destruct (acc_vlan acc).
Qed.

Lemma foldl_endpointLine_vlan_first lines acc :
  acc_vlan (foldl endpointLine acc lines)
  = if Str.truthy (acc_vlan acc) then acc_vlan acc
    else match List.find givesVlan lines with
         | Some line => vlanOfLine line
         | None => ""
         end.
Proof.
  revert acc. induction lines as [|line lines IH]; intros acc; simpl.
  - by destruct (acc_vlan acc).
  - rewrite IH, endpointLine_vlan_first.
    destruct (Str.truthy (acc_vlan acc)) eqn:Hset; [by rewrite Hset|].
    destruct (givesVlan line) eqn:Hgives; [|done].
    by rewrite truthy_digits_group.
Qed.

(** X4: the VLAN is first-match-wins: a record of [parseEndpointOutput]
    carries what [/vlan-(\d+)/i] reads in the first line that is not skipped
    and on which the pattern matches; later matches are ignored. *)
Theorem parseEndpointOutput_first_vlan (input : string) (record : EndpointData) :
  parseEndpointOutput input = Some record ->
  exists line,
    List.find givesVlan (linesOf input) = Some line
    /\ ep_vlan record = vlanOfLine line.
Proof.
  unfold parseEndpointOutput. fold (linesOf input). intros Hrecord.
  pose proof (endpointResult_some _ _ Hrecord) as (Hvlan & _).
  unfold endpointResult in Hrecord.
  destruct (Str.truthy (acc_vlan (endpointLines (linesOf input)))) eqn:Hset; [|done].
  unfold endpointLines in *. rewrite foldl_endpointLine_vlan_first in Hvlan, Hset.
  simpl in Hvlan, Hset.
  destruct (List.find givesVlan (linesOf input)) as [line|]; [|done].
  by exists line.
Qed.

Lemma parseEndpointOutput_first_vlan_witness :
  let input := "Node  Interface  vlan-1" +:+ newline
               +:+ "303  eth1/5  10.0.0.1  vlan-713" +:+ newline
               +:+ "304  eth1/6  10.0.0.2  vlan-800" in
  exists line,
    List.find givesVlan (linesOf input) = Some line /\ "713" = vlanOfLine line.
Proof.
  intros input.
  apply (parseEndpointOutput_first_vlan input
           (mkEndpointData "713" "10.0.0.1" ["eth1/5"; "eth1/6"] ""
              (<["eth1/6" := "304"]> {["eth1/5" := "303"]})
              (<["eth1/6" := "10.0.0.2"]> {["eth1/5" := "10.0.0.1"]}))).
  vm_compute. reflexivity.
Defined.

Lemma endpointLine_defaultIp acc line :
  acc_defaultIp (endpointLine acc line)
  = if Str.truthy (acc_defaultIp acc) then acc_defaultIp acc
    else if givesIp line then currentLineIP line else "".
Proof.
  unfold endpointLine, givesIp. destruct (skipLine line); cbn [negb andb].
  - by destruct (acc_defaultIp acc).
  - destruct (Re.exec Pat.nodeInterface line);
      destruct (firstVpcMatch Pat.vpcPatterns line); simpl;
      destruct (Str.truthy (currentLineIP line)), (acc_defaultIp acc); done.
Qed.

Lemma foldl_endpointLine_defaultIp lines acc :
  acc_defaultIp (foldl endpointLine acc lines)
  = if Str.truthy (acc_defaultIp acc) then acc_defaultIp acc
    else match List.find givesIp lines with
         | Some line => currentLineIP line
         | None => ""
         end.
Proof.
  revert acc. induction lines as [|line lines IH]; intros acc; simpl.
  - by destruct (acc_defaultIp acc).
  - rewrite IH, endpointLine_defaultIp.
    destruct (Str.truthy (acc_defaultIp acc)) eqn:Hset; [by rewrite Hset|].
    destruct (givesIp line) eqn:Hgives; [|done].
    unfold givesIp in Hgives. apply andb_true_iff in Hgives as [_ ->]. done.
Qed.

(** X5: the address is first-match-wins: a record of [parseEndpointOutput]
    carries the address of the first line that is not skipped and holds
    one, and the empty string when no such line exists. *)
Theorem parseEndpointOutput_first_ip (input : string) (record : EndpointData) :
  parseEndpointOutput input = Some record ->
  ep_ip record = match List.find givesIp (linesOf input) with
                 | Some line => currentLineIP line
                 | None => ""
                 end.
Proof.
  unfold parseEndpointOutput. fold (linesOf input). intros Hrecord.
  apply endpointResult_some in Hrecord as (_ & -> & _).
  unfold endpointLines. by rewrite foldl_endpointLine_defaultIp.
Qed.

Lemma parseEndpointOutput_first_ip_witness :
  let input := "vpc 425-426-VPC-31-32-PG  vlan-713" +:+ newline
               +:+ "303  eth1/5  10.0.0.1  vlan-713" +:+ newline
               +:+ "304  eth1/6  10.0.0.2  vlan-713" in
  "10.0.0.1" = match List.find givesIp (linesOf input) with
               | Some line => currentLineIP line
               | None => ""
               end.
Proof.
  intros input.
  apply (parseEndpointOutput_first_ip input
           (mkEndpointData "713" "10.0.0.1" ["425-426-VPC-31-32-PG"; "eth1/5"; "eth1/6"] ""
              (<["eth1/6" := "304"]> {["eth1/5" := "303"]})
              (<["eth1/6" := "10.0.0.2"]> {["eth1/5" := "10.0.0.1"]}))).
  vm_compute. reflexivity.
Defined.

Lemma blank_gives_no_record (input : string) :
  blank input = true -> parseEndpointOutput input = None.
Proof.
  intros Hblank. unfold parseEndpointOutput.
  by rewrite StrFacts.trim_blank.
Qed.

(** X6: a text of white space only, the empty text among them, gives no
    record. *)
Theorem parseEndpointOutput_blank (input : string) :
  blank input = true -> parseEndpointOutput input = None.
Proof. apply blank_gives_no_record. Qed.

Lemma parseEndpointOutput_blank_witness :
  parseEndpointOutput ("  " +:+ newline +:+ " " +:+ newline) = None.
Proof. apply parseEndpointOutput_blank. vm_compute. reflexivity. Defined.

End EndpointRecord.

(** ** The records of the attachment parser *)

Section MoqueryRecords.
Import Shape ReFacts TrimFacts StrFacts.

Lemma extractVlanFromEpg_facts (epgName : string) :
  digits (extractVlanFromEpg epgName) = true
  /\ (extractVlanFromEpg epgName = "" <-> Re.exec Pat.epgVlan epgName = None).
Proof.
  unfold extractVlanFromEpg.
  destruct (Re.exec Pat.epgVlan epgName) as [m|] eqn:Hexec; [|done].
  split.
  - by apply literal_then_digits_are_digits in Hexec.
  - apply literal_then_digits_group in Hexec. split; [done|discriminate].
Qed.

(** X7: [extractVlanFromEpg] returns a string of decimal digits, and the
    empty string exactly when the name holds no [VLAN<digits>] token. *)
Theorem extractVlanFromEpg_digits (epgName : string) :
  digits (extractVlanFromEpg epgName) = true
  /\ (extractVlanFromEpg epgName = "" <-> Re.exec Pat.epgVlan epgName = None).
Proof. apply extractVlanFromEpg_facts. Qed.

Lemma moqueryLines_Forall (P : PathAttachment -> Prop) (lines : list string) :
  (forall line, Forall P (moqueryLine [] line)) -> Forall P (moqueryLines lines).
Proof.
  intros Hline. induction lines as [|line lines IH]; [apply Forall_nil_2|].
  rewrite moqueryLines_cons. apply Forall_app. by split.
Qed.

Lemma moqueryLine_wellFormed (line : string) : Forall wellFormed (moqueryLine [] line).
Proof.
  unfold moqueryLine. destruct (negb _); [apply Forall_nil_2|].
  destruct (dnMatchOf line) as [[[dnMatch isVpc] id]|]; [|apply Forall_nil_2].
  destruct (Str.truthy (extractVlanFromEpg _)) eqn:Hvlan; [|apply Forall_nil_2].
  destruct (Str.truthy (if isVpc then _ else _)) eqn:Hpath; [|apply Forall_nil_2].
  simpl. apply Forall_singleton. unfold wellFormed. simpl.
  split; [by destruct (extractVlanFromEpg _)|].
  split; [by destruct (if isVpc then _ else _)|].
  split; [done|]. apply extractVlanFromEpg_facts.
Qed.

Lemma moqueryLine_reconstructible (line : string) :
  Forall reconstructible (moqueryLine [] line).
Proof.
  unfold moqueryLine. destruct (negb _); [apply Forall_nil_2|].
  destruct (dnMatchOf line) as [[[dnMatch isVpc] id]|]; [|apply Forall_nil_2].
  destruct (_ && _); [|apply Forall_nil_2].
  simpl. apply Forall_singleton. exists id. unfold fullPathOf. simpl.
  destruct isVpc; [by left|by right].
Qed.

(** X8: every record of [parseMoqueryOutput] has a VLAN and a path that are
    not empty; the VLAN is a string of digits and is what
    [extractVlanFromEpg] reads in the EPG of the record. *)
Theorem parseMoqueryOutput_wellFormed (input : string) :
  Forall wellFormed (parseMoqueryOutput input).
Proof. apply moqueryLines_Forall, moqueryLine_wellFormed. Qed.

(** X9: the full path of every record of [parseMoqueryOutput] can be rebuilt
    from the record: it is [<pod>/protpaths-<id>/pathep-[<path>]] or
    [<pod>/paths-<id>/pathep-[<path>]] for the pod and the path of the
    record and some identifier. *)
Theorem parseMoqueryOutput_reconstructible (input : string) :
  Forall reconstructible (parseMoqueryOutput input).
Proof. apply moqueryLines_Forall, moqueryLine_reconstructible. Qed.

Lemma splitLines_append_newline (a b : string) :
  Str.splitLines (a +:+ newline +:+ b) = Str.splitLines a ++ Str.splitLines b.
Proof.
  induction a as [|c a IH]; [done|].
  rewrite append_cons. simpl. rewrite IH.
  destruct (Ascii.eqb c "010"); [done|].
  destruct (Str.splitLines a) as [|h t] eqn:Hsplit; [|done].
  by apply splitLines_nonempty in Hsplit.
Qed.

(** X10: blobs compose: the records of one blob, a line feed and another
    blob are the records of the first followed by those of the second. *)
Theorem parseMoqueryOutput_concat (first second : string) :
  parseMoqueryOutput (first +:+ newline +:+ second)
  = parseMoqueryOutput first ++ parseMoqueryOutput second.
Proof.
  rewrite !parseMoqueryOutput_lines, splitLines_append_newline.
  apply moqueryLines_app.
Qed.

Lemma moqueryLines_lead (ws s : string) :
  blank ws = true ->
  moqueryLines (Str.splitLines (ws +:+ s)) = moqueryLines (Str.splitLines s).
Proof.
  induction ws as [|c ws IH]; [done|]. intros Hblank.
  apply andb_true_iff in Hblank as [Hc Hws].
  rewrite append_cons, moqueryLines_space by done. by apply IH.
Qed.

(** X11: white space around a blob, line feeds included, does not change
    its records. *)
Theorem parseMoqueryOutput_surrounding_space (lead input trail : string) :
  blank lead = true -> blank trail = true ->
  parseMoqueryOutput (lead +:+ input +:+ trail) = parseMoqueryOutput input.
Proof.
  intros Hlead Htrail. rewrite !parseMoqueryOutput_lines.
  by rewrite moqueryLines_lead, moqueryLines_append_blank.
Qed.

Lemma parseMoqueryOutput_surrounding_space_witness :
  let line := "dn : uni/tn-T/ap-A/epg-EPG-VLAN623-x/rspathAtt-[topology/pod-2/paths-303/pathep-[eth1/5]]" in
  parseMoqueryOutput ((newline +:+ "  ") +:+ line +:+ (" " +:+ newline +:+ newline))
  = parseMoqueryOutput line.
Proof.
  intros line.
  apply (parseMoqueryOutput_surrounding_space (newline +:+ "  ") line
           (" " +:+ newline +:+ newline));
    vm_compute; reflexivity.
Defined.

Lemma moqueryLine_length (line : string) : length (moqueryLine [] line) <= 1.
Proof.
  unfold moqueryLine. destruct (negb _); [simpl; lia|].
  destruct (dnMatchOf line) as [[[dnMatch isVpc] id]|]; [|simpl; lia].
  destruct (_ && _); simpl; lia.
Qed.

(** X12: a line gives at most one record: a blob has at most as many
    records as lines. *)
Theorem parseMoqueryOutput_length (input : string) :
  length (parseMoqueryOutput input) <= length (Str.splitLines input).
Proof.
  rewrite parseMoqueryOutput_lines.
  induction (Str.splitLines input) as [|line lines IH]; [done|].
  rewrite moqueryLines_cons, length_app. simpl.
  pose proof (moqueryLine_length line). lia.
Qed.

End MoqueryRecords.

(** ** The path key *)

Section PathKey.
Import Str Shape TrimFacts StrFacts.

Lemma toLowerChar_facts (c : ascii) :
  Char.isSpace (Char.toLowerChar c) = Char.isSpace c
  /\ isBracket (Char.toLowerChar c) = isBracket c
  /\ Char.toLowerChar (Char.toLowerChar c) = Char.toLowerChar c.
Proof. destruct c as [[] [] [] [] [] [] [] []]; vm_compute; done. Qed.

Lemma toLowerCase_idem (s : string) : toLowerCase (toLowerCase s) = toLowerCase s.
Proof.
  induction s as [|c s IH]; [done|]. simpl.
  destruct (toLowerChar_facts c) as (_ & _ & ->). by rewrite IH.
Qed.

Lemma toLowerCase_trimStart (s : string) :
  toLowerCase (trimStart s) = trimStart (toLowerCase s).
Proof.
  induction s as [|c s IH]; [done|]. simpl.
  destruct (toLowerChar_facts c) as (-> & _ & _).
  by destruct (Char.isSpace c).
Qed.

Lemma toLowerCase_trimEnd (s : string) :
  toLowerCase (trimEnd s) = trimEnd (toLowerCase s).
Proof.
  induction s as [|c s IH]; [done|]. simpl. rewrite <- IH.
  destruct (toLowerChar_facts c) as (-> & _ & _).
  destruct (trimEnd s); [|done]. simpl. by destruct (Char.isSpace c).
Qed.

Lemma toLowerCase_trim (s : string) : toLowerCase (trim s) = trim (toLowerCase s).
Proof. unfold trim. by rewrite toLowerCase_trimEnd, toLowerCase_trimStart. Qed.

Lemma toLowerCase_stripBrackets (s : string) :
  toLowerCase (stripBrackets s) = stripBrackets (toLowerCase s).
Proof.
  induction s as [|c s IH]; [done|]. simpl.
  destruct (toLowerChar_facts c) as (_ & Hbracket & _).
  unfold isBracket in Hbracket. rewrite Hbracket. clear Hbracket.
  destruct (_ || _); [exact IH|]. simpl. by rewrite IH.
Qed.

Lemma stripBrackets_noBrackets (s : string) : noBrackets (stripBrackets s) = true.
Proof.
  induction s as [|c s IH]; [done|]. simpl.
  destruct (Ascii.eqb c "[" || Ascii.eqb c "]") eqn:Hc; [done|].
  unfold noBrackets, isBracket in *. simpl. by rewrite Hc.
Qed.

Lemma stripBrackets_id (s : string) : noBrackets s = true -> stripBrackets s = s.
Proof.
  induction s as [|c s IH]; [done|]. unfold noBrackets, isBracket. simpl.
  intros Hs. apply andb_true_iff in Hs as [Hc Hs]. apply negb_true_iff in Hc.
  rewrite Hc. by rewrite IH.
Qed.

(** The key written with the steps in another order. *)
Lemma normalizePathName_alt (path : string) :
  normalizePathName path = stripBrackets (trim (toLowerCase path)).
Proof.
  unfold normalizePathName. by rewrite toLowerCase_stripBrackets, toLowerCase_trim.
Qed.

(** X13: a key of [normalizePathName] holds no square bracket and no
    capital letter: stripping brackets or lower-casing it again changes
    nothing. *)
Theorem normalizePathName_shape (path : string) :
  noBrackets (normalizePathName path) = true
  /\ Str.stripBrackets (normalizePathName path) = normalizePathName path
  /\ Str.toLowerCase (normalizePathName path) = normalizePathName path.
Proof.
  assert (Hno : noBrackets (normalizePathName path) = true).
  { rewrite normalizePathName_alt. apply stripBrackets_noBrackets. }
  split; [done|]. split; [by apply stripBrackets_id|].
  unfold normalizePathName. apply toLowerCase_idem.
Qed.




(** X15: normalising twice is normalising once, provided that taking the
    brackets away does not bring white space to an end of the path. *)
Theorem normalizePathName_idempotent (path : string) :
  Str.trim (Str.stripBrackets (Str.trim path)) = Str.stripBrackets (Str.trim path) ->
  normalizePathName (normalizePathName path) = normalizePathName path.
Proof.
  intros Hbare. rewrite (normalizePathName_alt (normalizePathName path)).
  unfold normalizePathName at 1.
  rewrite toLowerCase_idem, <- toLowerCase_trim, Hbare.
  rewrite <- toLowerCase_stripBrackets.
  rewrite (stripBrackets_id (stripBrackets (trim path))) by apply stripBrackets_noBrackets.
  done.
Qed.

Lemma normalizePathName_idempotent_witness :
  normalizePathName (normalizePathName " [ETH1/5] ") = normalizePathName " [ETH1/5] ".
Proof. apply normalizePathName_idempotent. vm_compute. reflexivity. Defined.

(** Without the proviso it fails: the brackets of [[ eth1/5 ]] shield the
    blanks from the first [trim]. *)
Lemma normalizePathName_not_idempotent :
  normalizePathName "[ eth1/5 ]" = " eth1/5 "
  /\ normalizePathName (normalizePathName "[ eth1/5 ]") = "eth1/5".
Proof. split; vm_compute; reflexivity. Qed.

End PathKey.

(** ** The validator and the attachment list *)

Lemma verdict_by_flag endpointData pathAttachments path :
  verdict endpointData pathAttachments path
  = let isAllowed := res_isVlanAllowed (verdict endpointData pathAttachments path) in
    mkValidationResult path true isAllowed (if isAllowed then allowed else not_allowed).
Proof. done. Qed.

Lemma attached_mono vlan path (atts atts' : list PathAttachment) :
  (forall att, att ∈ atts -> att ∈ atts') ->
  attached vlan path atts -> attached vlan path atts'.
Proof. intros Hsub (att & Hin & Hrest). exists att. split; [by apply Hsub|done]. Qed.

(** X16: the order of the attachments and their repetitions do not matter
    to the validator: two lists with the same members give the same
    results. *)
Theorem validateVlanAllowances_same_members (endpointData : EndpointData)
    (pathAttachments others : list PathAttachment) :
  (forall att, att ∈ pathAttachments <-> att ∈ others) ->
  validateVlanAllowances endpointData pathAttachments
  = validateVlanAllowances endpointData others.
Proof.
  intros Hsame. rewrite !validateVlanAllowances_map.
  apply map_ext. intros path.
  rewrite (verdict_by_flag _ pathAttachments), (verdict_by_flag _ others).
  assert (res_isVlanAllowed (verdict endpointData pathAttachments path)
          = res_isVlanAllowed (verdict endpointData others path)) as ->; [|done].
  apply eq_true_iff_eq. rewrite !verdict_allowed.
  split; apply attached_mono; intros att; apply Hsame.
Qed.

Lemma validateVlanAllowances_same_members_witness :
  let a := mkPathAttachment "713" "EPG-VLAN713-x" "eth1/5" "pod-1/paths-303/pathep-[eth1/5]" "pod-1" in
  let b := mkPathAttachment "713" "EPG-VLAN713-x" "ETH1/5" "pod-2/paths-304/pathep-[ETH1/5]" "pod-2" in
  let endpointData := mkEndpointData "713" "" ["eth1/5"; "eth1/6"] "" ∅ ∅ in
  validateVlanAllowances endpointData [a; b]
  = validateVlanAllowances endpointData [b; a; b].
Proof.
  intros a b endpointData.
  apply (validateVlanAllowances_same_members endpointData [a; b] [b; a; b]).
  intros att. rewrite !list_elem_of_In. simpl. tauto.
Defined.

(** X17: more attachments never take a permission away: a path that is
    [allowed] against a list is [allowed] against every list that holds the
    members of the first. *)
Theorem validateVlanAllowances_monotone (endpointData : EndpointData)
    (pathAttachments more : list PathAttachment) :
  (forall att, att ∈ pathAttachments -> att ∈ more) ->
  Forall2 (fun result result' =>
             res_path result' = res_path result
             /\ (res_status result = allowed -> res_status result' = allowed))
    (validateVlanAllowances endpointData pathAttachments)
    (validateVlanAllowances endpointData more).
Proof.
  intros Hsub. rewrite !validateVlanAllowances_map.
  apply Forall2_fmap, Forall_Forall2_diag, Forall_forall.
  intros path _. split; [done|].
  rewrite !verdict_status.
  destruct (res_isVlanAllowed (verdict endpointData pathAttachments path)) eqn:Hfew;
    [|done].
  intros _. apply verdict_allowed in Hfew.
  apply (attached_mono _ _ _ _ Hsub), verdict_allowed in Hfew. by rewrite Hfew.
Qed.

Lemma validateVlanAllowances_monotone_witness :
  let a := mkPathAttachment "713" "EPG-VLAN713-x" "eth1/5" "pod-1/paths-303/pathep-[eth1/5]" "pod-1" in
  let b := mkPathAttachment "713" "EPG-VLAN713-x" "eth1/6" "pod-1/paths-303/pathep-[eth1/6]" "pod-1" in
  let endpointData := mkEndpointData "713" "" ["eth1/5"; "eth1/6"] "" ∅ ∅ in
  Forall2 (fun result result' =>
             res_path result' = res_path result
             /\ (res_status result = allowed -> res_status result' = allowed))
    (validateVlanAllowances endpointData [a])
    (validateVlanAllowances endpointData [b; a]).
Proof.
  intros a b endpointData.
  apply (validateVlanAllowances_monotone endpointData [a] [b; a]).
  intros att. rewrite !list_elem_of_In. simpl. tauto.
Defined.

(** ** The rows of [generateCSV] *)

Section CsvRows.
Import Shape TrimFacts StrFacts.

(** X18: the text of [generateCSV] splits back into the header line and one
    line per denied result, in the order of the results, when there is a
    denied result and no row holds a line feed. *)
Theorem generateCSV_lines (vlan epg : string) (results : list ValidationResult)
    (endpointData : EndpointData) (pathAttachments : list PathAttachment) :
  denied results <> [] ->
  Forall (fun row => oneLine row = true) (csvRows vlan epg results pathAttachments) ->
  Str.splitLines (generateCSV vlan epg results endpointData pathAttachments)
    = "VLAN,EPG,PATH" :: csvRows vlan epg results pathAttachments
  /\ length (csvRows vlan epg results pathAttachments) = length (denied results).
Proof.
  intros Hdenied Hrows. split.
  - unfold generateCSV. cbn zeta.
    change ("VLAN,EPG,PATH" +:+ newline +:+ ?rows)
      with ("VLAN,EPG,PATH" +:+ String "010" rows).
    rewrite splitLines_line_then by done.
    rewrite splitLines_joinLines; [done| |done].
    unfold csvRows. destruct (denied results); [done|discriminate].
  - unfold csvRows. by rewrite !length_map.
Qed.

Lemma generateCSV_lines_witness :
  let results := [mkValidationResult "eth1/5" true false not_allowed;
                  mkValidationResult "eth1/6" true true allowed;
                  mkValidationResult "425-426-VPC-31-32-PG" true false not_allowed] in
  let endpointData := mkEndpointData "713" "" ["eth1/5"; "eth1/6"; "425-426-VPC-31-32-PG"] "" ∅ ∅ in
  let atts := [mkPathAttachment "713" "EPG-VLAN713-x" "eth1/6" "pod-2/paths-303/pathep-[eth1/6]" "pod-2"] in
  Str.splitLines (generateCSV "713" "epg-x" results endpointData atts)
    = "VLAN,EPG,PATH" :: csvRows "713" "epg-x" results atts
  /\ length (csvRows "713" "epg-x" results atts) = length (denied results).
Proof.
  intros results endpointData atts.
  apply (generateCSV_lines "713" "epg-x" results endpointData atts).
  - vm_compute. discriminate.
  - repeat (apply Forall_cons_2; [vm_compute; reflexivity|]). apply Forall_nil_2.
Defined.

Lemma podByNode_firstPod node atts pod :
  podByNode node atts pod = firstPod (hasNode node) atts pod.
Proof.
  unfold firstPod. induction atts as [|att atts IH]; [done|].
  simpl. unfold hasNode at 1, pathsNode.
  destruct (Re.exec Pat.csvPaths (att_fullPath att)) as [attMatch|]; [|done].
  by destruct (String.eqb _ _).
Qed.

(** X19: a denied path without exact normalised match that is not of VPC
    shape and on which [/^([\d()X]+)[-\/]/] reads the node n gets the path
    [<pod>/paths-<n>/pathep-[<path>]]; the pod is that of the first
    attachment in whose full path [/paths-([\d()X]+)\//] reads n, else that
    of the first attachment of the VLAN, else [pod-1]. *)
Theorem generateCSV_single_path (vlan epg : string) (pathAttachments : list PathAttachment)
    (pathName : string) (singleMatch : list string) :
  lastWithKey (normalizePathName pathName) pathAttachments = None ->
  Re.exec Pat.csvVpc pathName = None ->
  Re.exec Pat.csvSingle pathName = Some singleMatch ->
  let node := Re.group 1 singleMatch in
  let pod := firstPod (hasNode node) pathAttachments
               (vlanPodOr "pod-1" vlan pathAttachments) in
  csvRow vlan epg pathAttachments pathName
  = vlan +:+ "," +:+ epg +:+ "," +:+ pod +:+ "/paths-" +:+ node
    +:+ "/pathep-[" +:+ pathName +:+ "]".
Proof.
  intros Hnone Hvpc Hsingle node pod. unfold csvRow, csvPath.
  rewrite pathMap_lookup, Hnone, Hvpc, Hsingle.
  by rewrite podByNode_firstPod, defaultPodOf_firstPod.
Qed.

Lemma generateCSV_single_path_witness :
  let other := mkPathAttachment "9" "EPG-VLAN9-a" "eth1/9" "pod-3/paths-3030/pathep-[eth1/9]" "pod-3" in
  let same := mkPathAttachment "9" "EPG-VLAN9-b" "eth1/7" "pod-4/paths-303/pathep-[eth1/7]" "pod-4" in
  csvRow "713" "epg-x" [other; same] "303-eth1/5"
  = "713,epg-x,pod-4/paths-303/pathep-[303-eth1/5]".
Proof.
  intros other same.
  apply (generateCSV_single_path "713" "epg-x" [other; same] "303-eth1/5" ["303"]);
    vm_compute; reflexivity.
Defined.

(** X20: a denied path without exact normalised match on which neither
    node pattern matches, an interface name like [eth1/5] among them, gets
    the placeholder path [<pod>/paths-XXX/pathep-[<path>]] with the pod of
    the first attachment of the VLAN, else [pod-1]. *)
Theorem generateCSV_placeholder_path (vlan epg : string)
    (pathAttachments : list PathAttachment) (pathName : string) :
  lastWithKey (normalizePathName pathName) pathAttachments = None ->
  Re.exec Pat.csvVpc pathName = None ->
  Re.exec Pat.csvSingle pathName = None ->
  csvRow vlan epg pathAttachments pathName
  = vlan +:+ "," +:+ epg +:+ "," +:+ vlanPodOr "pod-1" vlan pathAttachments
    +:+ "/paths-XXX/pathep-[" +:+ pathName +:+ "]".
Proof.
  intros Hnone Hvpc Hsingle. unfold csvRow, csvPath.
  rewrite pathMap_lookup, Hnone, Hvpc, Hsingle.
  by rewrite defaultPodOf_firstPod.
Qed.

Lemma generateCSV_placeholder_path_witness :
  let att := mkPathAttachment "713" "EPG-VLAN713-x" "eth1/9" "pod-3/paths-303/pathep-[eth1/9]" "pod-3" in
  csvRow "713" "epg-x" [att] "eth1/5" = "713,epg-x,pod-3/paths-XXX/pathep-[eth1/5]".
Proof.
  intros att.
  apply (generateCSV_placeholder_path "713" "epg-x" [att] "eth1/5");
    vm_compute; reflexivity.
Defined.

End CsvRows.

(** ** From the validator to the export *)

Lemma firstPod_cases (test : PathAttachment -> bool) (atts : list PathAttachment)
    (fallback : string) :
  firstPod test atts fallback = fallback
  \/ exists att, att ∈ atts /\ firstPod test atts fallback = att_pod att.
Proof.
  unfold firstPod. destruct (List.find test atts) as [att|] eqn:Hfind; [|by left].
  right. exists att. split; [|done].
  apply find_some in Hfind as [Hin _]. by apply list_elem_of_In.
Qed.

(** X21: [generateCSV] invents no pod: the path it rebuilds for a denied
    path without exact normalised match starts with the pod of an
    attachment of the list or with [pod-1], and ends in
    [/pathep-[<path>]]. *)
Theorem generateCSV_pod_origin (vlan : string) (pathAttachments : list PathAttachment)
    (pathName : string) :
  lastWithKey (normalizePathName pathName) pathAttachments = None ->
  exists pod middle,
    csvPath vlan pathAttachments pathName
      = pod +:+ middle +:+ "/pathep-[" +:+ pathName +:+ "]"
    /\ (pod = "pod-1" \/ exists att, att ∈ pathAttachments /\ att_pod att = pod).
Proof.
  intros Hnone. unfold csvPath. rewrite pathMap_lookup, Hnone.
  assert (Hdefault : defaultPodOf vlan pathAttachments = "pod-1"
                     \/ exists att, att ∈ pathAttachments
                                    /\ att_pod att = defaultPodOf vlan pathAttachments).
  { rewrite defaultPodOf_firstPod. unfold vlanPodOr.
    destruct (firstPod_cases (fun att => String.eqb (att_vlan att) vlan)
                pathAttachments "pod-1") as [->|(att & Hin & ->)]; [by left|].
    right. by exists att. }
  destruct (Re.exec Pat.csvVpc pathName) as [vpcMatch|].
  - exists (podByNodes (Re.group 1 vpcMatch) (Re.group 2 vpcMatch) pathAttachments
              (defaultPodOf vlan pathAttachments)),
      ("/protpaths-" +:+ Re.group 1 vpcMatch +:+ "-" +:+ Re.group 2 vpcMatch).
    split; [by rewrite !TrimFacts.append_assoc|].
    rewrite podByNodes_firstPod.
    destruct (firstPod_cases (hasNodes (Re.group 1 vpcMatch) (Re.group 2 vpcMatch))
                pathAttachments (defaultPodOf vlan pathAttachments))
      as [->|(att & Hin & ->)]; [done|].
    right. by exists att.
  - destruct (Re.exec Pat.csvSingle pathName) as [singleMatch|].
    + exists (podByNode (Re.group 1 singleMatch) pathAttachments
                (defaultPodOf vlan pathAttachments)),
        ("/paths-" +:+ Re.group 1 singleMatch).
      split; [by rewrite !TrimFacts.append_assoc|].
      rewrite podByNode_firstPod.
      destruct (firstPod_cases (hasNode (Re.group 1 singleMatch))
                  pathAttachments (defaultPodOf vlan pathAttachments))
        as [->|(att & Hin & ->)]; [done|].
      right. by exists att.
    + exists (defaultPodOf vlan pathAttachments), "/paths-XXX". done.
Qed.

Lemma generateCSV_pod_origin_witness :
  let att := mkPathAttachment "9" "EPG-VLAN9-b" "y" "pod-4/protpaths-425-426/pathep-[y]" "pod-4" in
  exists pod middle,
    csvPath "713" [att] "425-426-VPC-31-32-PG"
      = pod +:+ middle +:+ "/pathep-[" +:+ "425-426-VPC-31-32-PG" +:+ "]"
    /\ (pod = "pod-1" \/ exists a, a ∈ [att] /\ att_pod a = pod).
Proof.
  intros att.
  apply (generateCSV_pod_origin "713" [att] "425-426-VPC-31-32-PG").
  vm_compute. reflexivity.
Defined.

(** X22: in the pipeline from the validator to [generateCSV] with the VLAN
    of the endpoint, an exact match of a denied path is an attachment of
    another VLAN: the row reuses the full path of an attachment that does
    not carry the VLAN of the row. *)
Theorem generateCSV_exact_match_other_vlan (epg : string) (endpointData : EndpointData)
    (pathAttachments : list PathAttachment) (result : ValidationResult)
    (att : PathAttachment) :
  result ∈ denied (validateVlanAllowances endpointData pathAttachments) ->
  lastWithKey (normalizePathName (res_path result)) pathAttachments = Some att ->
  att_vlan att <> ep_vlan endpointData
  /\ csvRow (ep_vlan endpointData) epg pathAttachments (res_path result)
     = ep_vlan endpointData +:+ "," +:+ epg +:+ "," +:+ att_fullPath att.
Proof.
  intros Hresult Hlast. split.
  - apply denied_status in Hresult as [Hin Hstatus].
    rewrite validateVlanAllowances_map in Hin.
    apply list_elem_of_In, in_map_iff in Hin as (path & <- & _).
    rewrite verdict_status in Hstatus.
    destruct (res_isVlanAllowed (verdict endpointData pathAttachments path)) eqn:Hflag;
      [done|].
    intros Hvlan. apply not_true_iff_false in Hflag. apply Hflag, verdict_allowed.
    apply lastWithKey_spec in Hlast as (before & after & -> & Hkey & _).
    exists att. split; [|done]. apply elem_of_app. right. apply list_elem_of_In. by left.
  - unfold csvRow, csvPath. by rewrite pathMap_lookup, Hlast.
Qed.

Lemma generateCSV_exact_match_other_vlan_witness :
  let att := mkPathAttachment "100" "EPG-VLAN100-a" "ETH1/5" "pod-3/paths-301/pathep-[ETH1/5]" "pod-3" in
  let endpointData := mkEndpointData "713" "" ["eth1/5"] "" ∅ ∅ in
  "100" <> "713"
  /\ csvRow "713" "epg-x" [att] "eth1/5" = "713,epg-x,pod-3/paths-301/pathep-[ETH1/5]".
Proof.
  intros att endpointData.
  apply (generateCSV_exact_match_other_vlan "epg-x" endpointData [att]
           (mkValidationResult "eth1/5" true false not_allowed) att).
  - vm_compute. apply list_elem_of_In. by left.
  - vm_compute. reflexivity.
Defined.

(** ** The handlers of the component *)

Section Handlers.
Import Shape TrimFacts StrFacts.

Lemma trimStart_cut (s : string) :
  exists lead, blank lead = true /\ s = lead +:+ Str.trimStart s.
Proof.
  induction s as [|c s (lead & Hlead & Hs)]; [by exists ""|].
  simpl. destruct (Char.isSpace c) eqn:Hc.
  - exists (String c lead). split; [unfold blank in *; simpl; by rewrite Hc|].
    rewrite append_cons. by rewrite <- Hs.
  - by exists "".
Qed.

Lemma trim_empty_blank (s : string) : Str.trim s = "" -> blank s = true.
Proof.
  unfold Str.trim. intros Hempty.
  destruct (trimStart_cut s) as (lead & Hlead & Hs).
  destruct (trimEnd_cut (Str.trimStart s)) as (trail & Htrail & Hcut).
  rewrite Hempty in Hcut. change ("" +:+ trail) with trail in Hcut.
  rewrite Hs, Hcut. unfold blank in *. rewrite allOf_append. by rewrite Hlead, Htrail.
Qed.

Lemma falsy_trim_blank (s : string) :
  negb (Str.truthy (Str.trim s)) = true -> blank s = true.
Proof.
  intros Hfalsy. apply trim_empty_blank. by destruct (Str.trim s).
Qed.

Lemma extractVlanFromEpg_blank (epgName : string) :
  blank epgName = true -> extractVlanFromEpg epgName = "".
Proof.
  intros Hblank. unfold extractVlanFromEpg, Re.exec.
  rewrite search_blank; [done| |done]. vm_compute. reflexivity.
Qed.

Lemma validateEntry_unguarded (parsedMoquery : list PathAttachment)
    (entry : ValidationEntry) :
  validateEntry parsedMoquery entry
  = match parseEndpointOutput (entry_endpointInput entry) with
    | Some parsedEndpoint =>
        let vlanFromEpg := extractVlanFromEpg (entry_epgName entry) in
        if Str.truthy vlanFromEpg then
          let endpointWithCorrectVlan :=
            mkEndpointData vlanFromEpg (ep_ip parsedEndpoint) (ep_paths parsedEndpoint)
              (ep_pod parsedEndpoint) (ep_pathsWithNodes parsedEndpoint)
              (ep_pathsWithIPs parsedEndpoint) in
          mkValidationEntry (entry_id entry) (entry_endpointInput entry)
            (entry_epgName entry)
            (Some (validateVlanAllowances endpointWithCorrectVlan parsedMoquery))
            (Some endpointWithCorrectVlan)
        else entry
    | None => entry
    end.
Proof.
  unfold validateEntry.
  destruct (negb (Str.truthy (Str.trim (entry_endpointInput entry)))) eqn:Hinput.
  - apply falsy_trim_blank in Hinput. by rewrite blank_gives_no_record.
  - destruct (parseEndpointOutput (entry_endpointInput entry)) as [parsedEndpoint|];
      [|done].
    destruct (negb (Str.truthy (Str.trim (entry_epgName entry)))) eqn:Hepg.
    + apply falsy_trim_blank in Hepg. by rewrite extractVlanFromEpg_blank.
    + cbn zeta. by destruct (Str.truthy (extractVlanFromEpg (entry_epgName entry))).
Qed.

(** X23: the two blank tests of [handleValidate] decide nothing: an entry
    is validated exactly when its endpoint text parses and its EPG name
    holds a VLAN; it is then validated under the VLAN of the EPG name, not
    under the VLAN of the endpoint text; every other entry is left as it
    is. *)
Theorem validateEntry_guards (parsedMoquery : list PathAttachment)
    (entry : ValidationEntry) :
  validateEntry parsedMoquery entry
  = match parseEndpointOutput (entry_endpointInput entry) with
    | Some parsedEndpoint =>
        let vlanFromEpg := extractVlanFromEpg (entry_epgName entry) in
        if Str.truthy vlanFromEpg then
          let endpointWithCorrectVlan :=
            mkEndpointData vlanFromEpg (ep_ip parsedEndpoint) (ep_paths parsedEndpoint)
              (ep_pod parsedEndpoint) (ep_pathsWithNodes parsedEndpoint)
              (ep_pathsWithIPs parsedEndpoint) in
          mkValidationEntry (entry_id entry) (entry_endpointInput entry)
            (entry_epgName entry)
            (Some (validateVlanAllowances endpointWithCorrectVlan parsedMoquery))
            (Some endpointWithCorrectVlan)
        else entry
    | None => entry
    end.
Proof. apply validateEntry_unguarded. Qed.

Lemma validateEntry_fields parsedMoquery entry :
  entry_id (validateEntry parsedMoquery entry) = entry_id entry
  /\ entry_endpointInput (validateEntry parsedMoquery entry) = entry_endpointInput entry
  /\ entry_epgName (validateEntry parsedMoquery entry) = entry_epgName entry.
Proof.
  rewrite validateEntry_unguarded.
  destruct (parseEndpointOutput _); [|done]. cbn zeta.
  by destruct (Str.truthy _).
Qed.

Lemma validateEntry_idem parsedMoquery entry :
  validateEntry parsedMoquery (validateEntry parsedMoquery entry)
  = validateEntry parsedMoquery entry.
Proof.
  rewrite (validateEntry_unguarded _ (validateEntry parsedMoquery entry)).
  destruct (validateEntry_fields parsedMoquery entry) as (_ & -> & ->).
  rewrite (validateEntry_unguarded _ entry).
  destruct (parseEndpointOutput (entry_endpointInput entry)); [|done]. cbn zeta.
  by destruct (Str.truthy _).
Qed.

(** X24: validating twice is validating once: [handleValidate] run on the
    state it has produced gives that state again. *)
Theorem handleValidate_idempotent (st : AppState) :
  handleValidate (handleValidate st) = handleValidate st.
Proof.
  unfold handleValidate.
  destruct (length (parseMoqueryOutput (app_moqueryInput st)) =? 0) eqn:Hparsed; simpl;
    rewrite Hparsed; [done|].
  f_equal. rewrite List.map_map. apply map_ext. intros entry.
  apply validateEntry_idem.
Qed.

(** X25: [handleValidate] never edits the form: the entries keep their
    number, their order, their ids and the two texts the user typed. *)
Theorem handleValidate_keeps_form (st : AppState) :
  List.map (fun e => (entry_id e, entry_endpointInput e, entry_epgName e))
    (app_entries (handleValidate st))
  = List.map (fun e => (entry_id e, entry_endpointInput e, entry_epgName e))
      (app_entries st)
  /\ app_moqueryInput (handleValidate st) = app_moqueryInput st.
Proof.
  unfold handleValidate. destruct (_ =? 0); simpl; [done|].
  split; [|done]. rewrite List.map_map. apply map_ext. intros entry.
  by destruct (validateEntry_fields (parseMoqueryOutput (app_moqueryInput st)) entry)
    as (-> & -> & ->).
Qed.

Lemma removeEntry_length (id : string) (entries : list ValidationEntry) :
  NoDup (List.map entry_id entries) ->
  length entries - 1
  <= length (List.filter (fun e => negb (String.eqb (entry_id e) id)) entries).
Proof.
  induction entries as [|entry entries IH]; [done|]. simpl. intros Hids.
  apply NoDup_cons in Hids as [Hfresh Hids].
  destruct (String.eqb_spec (entry_id entry) id) as [Heq|Hne]; simpl.
  - assert (List.filter (fun e => negb (String.eqb (entry_id e) id)) entries = entries)
      as ->; [|lia].
    clear IH Hids. induction entries as [|e entries IH]; [done|]. simpl.
    apply not_elem_of_cons in Hfresh as [Hne Hfresh].
    destruct (String.eqb_spec (entry_id e) id) as [He|_]; [congruence|].
    simpl. by rewrite IH.
  - specialize (IH Hids). lia.
Qed.

Lemma filter_ids_NoDup (test : ValidationEntry -> bool) (entries : list ValidationEntry) :
  NoDup (List.map entry_id entries) ->
  NoDup (List.map entry_id (List.filter test entries)).
Proof.
  induction entries as [|entry entries IH]; [done|]. simpl. intros Hids.
  apply NoDup_cons in Hids as [Hfresh Hids].
  destruct (test entry); [|by apply IH]. simpl.
  apply NoDup_cons. split; [|by apply IH].
  intros Hin. apply Hfresh.
  apply list_elem_of_In, in_map_iff in Hin as (e & He & Hin).
  apply filter_In in Hin as [Hin _].
  apply list_elem_of_In, in_map_iff. by exists e.
Qed.

Lemma removeEntry_facts (id : string) (entries : list ValidationEntry) :
  NoDup (List.map entry_id entries) ->
  entries <> [] ->
  removeEntry id entries <> []
  /\ length entries - 1 <= length (removeEntry id entries)
  /\ (forall e, e ∈ removeEntry id entries ->
        e ∈ entries /\ (1 < length entries -> entry_id e <> id)).
Proof.
  intros Hids Hsome. unfold removeEntry.
  destruct (1 <? length entries) eqn:Hmany.
  - apply Nat.ltb_lt in Hmany. pose proof (removeEntry_length id entries Hids) as Hlen.
    split; [|split; [done|]].
    + intros Hnil. rewrite Hnil in Hlen. simpl in Hlen. lia.
    + intros e He. apply list_elem_of_In, filter_In in He as [Hin Hid].
      split; [by apply list_elem_of_In|]. intros _.
      by destruct (String.eqb_spec (entry_id e) id).
  - apply Nat.ltb_ge in Hmany. split; [done|]. split; [lia|].
    intros e He. split; [done|lia].
Qed.

(** X26: with ids that are all different, [removeEntry] never empties the
    list, and when the list has a second entry it removes the entry with
    the id and nothing else. *)
Theorem removeEntry_keeps_one (id : string) (entries : list ValidationEntry) :
  NoDup (List.map entry_id entries) ->
  entries <> [] ->
  removeEntry id entries <> []
  /\ length entries - 1 <= length (removeEntry id entries)
  /\ (forall e, e ∈ removeEntry id entries ->
        e ∈ entries /\ (1 < length entries -> entry_id e <> id)).
Proof. apply removeEntry_facts. Qed.

Lemma removeEntry_keeps_one_witness :
  let a := mkValidationEntry "1" "" "" None None in
  let b := mkValidationEntry "1730000000000" "x" "y" None None in
  removeEntry "1" [a; b] <> []
  /\ length [a; b] - 1 <= length (removeEntry "1" [a; b])
  /\ (forall e, e ∈ removeEntry "1" [a; b] ->
        e ∈ [a; b] /\ (1 < length [a; b] -> entry_id e <> "1")).
Proof.
  intros a b. apply (removeEntry_keeps_one "1" [a; b]).
  - simpl. apply NoDup_cons. split.
    + intros Hin. apply list_elem_of_singleton in Hin. discriminate Hin.
    + apply NoDup_singleton.
  - discriminate.
Defined.

(** Two entries with one id: [removeEntry] takes both and leaves nothing. *)
Lemma removeEntry_shared_id :
  removeEntry "7" [mkValidationEntry "7" "a" "" None None;
                   mkValidationEntry "7" "b" "" None None] = [].
Proof. vm_compute. reflexivity. Qed.

Lemma validateEntry_coherent parsedMoquery entry :
  coherent entry -> coherent (validateEntry parsedMoquery entry).
Proof.
  intros Hentry. rewrite validateEntry_unguarded.
  destruct (parseEndpointOutput _); [|done]. cbn zeta.
  destruct (Str.truthy _); [|done]. unfold coherent. simpl. split; eauto.
Qed.

Lemma updateEntry_ids id field value entries :
  List.map entry_id (updateEntry id field value entries) = List.map entry_id entries.
Proof.
  unfold updateEntry. rewrite List.map_map. apply map_ext. intros e.
  destruct (String.eqb _ _); [|done]. by destruct field.
Qed.

Lemma entriesInvariant_by_ids (entries entries' : list ValidationEntry) :
  List.map entry_id entries' = List.map entry_id entries ->
  Forall coherent entries' ->
  entriesInvariant entries -> entriesInvariant entries'.
Proof.
  intros Hids Hcoherent (Hsome & Hnodup & _). split; [|split; [by rewrite Hids|done]].
  intros ->. by destruct entries.
Qed.

Lemma reachable_entriesInvariant (st : AppState) :
  reachable st -> entriesInvariant (app_entries st).
Proof.
  induction 1 as [|st text _ IH|st now _ IH Hfresh|st id _ IH|st id field value _ IH
                   |st _ IH|st _ IH]; simpl.
  - split; [done|]. split; [apply NoDup_singleton|].
    apply Forall_singleton. unfold coherent. simpl. split; intros [? ?]; done.
  - done.
  - destruct IH as (Hsome & Hids & Hcoherent). unfold addEntry. split; [|split].
    + by destruct (app_entries st).
    + rewrite List.map_app. simpl. apply NoDup_app. split; [done|]. split.
      * intros x Hx Hx'. apply list_elem_of_singleton in Hx'. by subst x.
      * apply NoDup_singleton.
    + apply Forall_app. split; [done|]. apply Forall_singleton.
      unfold coherent. simpl. split; intros [? ?]; done.
  - destruct IH as (Hsome & Hids & Hcoherent).
    split; [by apply removeEntry_facts|].
    unfold removeEntry. destruct (1 <? _); [|done]. split.
    + by apply filter_ids_NoDup.
    + apply Forall_forall. intros e He.
      apply list_elem_of_In, filter_In in He as [He _].
      rewrite Forall_forall in Hcoherent. by apply Hcoherent, list_elem_of_In.
  - apply (entriesInvariant_by_ids (app_entries st)); [apply updateEntry_ids| |done].
    destruct IH as (_ & _ & Hcoherent). unfold updateEntry.
    apply Forall_fmap. apply (Forall_impl _ _ _ Hcoherent). intros e He. simpl.
    destruct (String.eqb _ _); [|done]. by destruct field.
  - unfold handleValidate. destruct (_ =? 0); simpl; [done|].
    apply (entriesInvariant_by_ids (app_entries st)); [| |done].
    + rewrite List.map_map. apply map_ext. intros e.
      by destruct (validateEntry_fields (parseMoqueryOutput (app_moqueryInput st)) e)
        as (-> & _).
    + destruct IH as (_ & _ & Hcoherent). apply Forall_fmap.
      apply (Forall_impl _ _ _ Hcoherent). intros e He. by apply validateEntry_coherent.
  - unfold exportState. by destruct (handleExportAllCSV _ _).
Qed.

(** X27: in every state the component can reach, the entry list is not
    empty, the ids of the entries are all different, and an entry holds
    results exactly when it holds endpoint data. *)
Theorem reachable_entries (st : AppState) :
  reachable st -> entriesInvariant (app_entries st).
Proof. apply reachable_entriesInvariant. Qed.

Lemma reachable_entries_witness :
  entriesInvariant
    (app_entries
       (handleValidate
          (mkAppState
             "dn : uni/tn-T/ap-A/epg-EPG-VLAN713-x/rspathAtt-[topology/pod-3/paths-301/pathep-[eth1/9]]"
             (updateEntry "1" epgNameField "EPG-VLAN713-x"
                (updateEntry "1" endpointInputField "303  eth1/5  10.0.0.1  vlan-713"
                   (app_entries initialState)))
             [] None))).
Proof.
  apply reachable_entries.
  apply reach_validate.
  apply (reach_moquery
           (mkAppState "" (updateEntry "1" epgNameField "EPG-VLAN713-x"
                             (updateEntry "1" endpointInputField
                                "303  eth1/5  10.0.0.1  vlan-713"
                                (app_entries initialState))) [] None)).
  apply (reach_update
           (mkAppState "" (updateEntry "1" endpointInputField
                             "303  eth1/5  10.0.0.1  vlan-713"
                             (app_entries initialState)) [] None)).
  apply (reach_update initialState). apply reach_initial.
Defined.

Lemma totalNotAllowed_sum (entries : list ValidationEntry) (start : nat) :
  foldl (fun sum entry => sum + notAllowedCount entry) start entries
  = start + totalNotAllowed entries.
Proof.
  unfold totalNotAllowed. revert start.
  induction entries as [|entry entries IH]; intros start; simpl; [lia|].
  rewrite IH, (IH (notAllowedCount entry)). lia.
Qed.

Lemma entryRows_length pathAttachments entry :
  coherent entry -> length (entryRows pathAttachments entry) = notAllowedCount entry.
Proof.
  unfold coherent, entryRows, notAllowedCount. intros [Hdata _].
  destruct (entry_results entry) as [results|]; [|done].
  destruct (entry_endpointData entry) as [endpointData|].
  - unfold exportRows. by rewrite length_map.
  - destruct Hdata as [? ?]; [eauto|done].
Qed.

Lemma allRowsOf_length pathAttachments entries :
  Forall coherent entries ->
  length (allRowsOf entries pathAttachments) = totalNotAllowed entries.
Proof.
  unfold allRowsOf, totalNotAllowed.
  induction entries as [|entry entries IH]; intros Hall; [done|].
  apply Forall_cons in Hall as [Hentry Hall]. simpl.
  rewrite length_app, entryRows_length, totalNotAllowed_sum by done.
  rewrite (IH Hall). done.
Qed.

(** X28: in every state the component can reach, the export writes as many
    rows as [totalNotAllowed] counts, and sets its error exactly when that
    count is 0: the export button, shown for a count above 0, never leads
    to the error. *)
Theorem export_matches_count (st : AppState) :
  reachable st ->
  length (allRowsOf (app_entries st) (app_pathAttachments st))
    = totalNotAllowed (app_entries st)
  /\ (handleExportAllCSV (app_entries st) (app_pathAttachments st)
        = inl "No validation issues to export."
      <-> totalNotAllowed (app_entries st) = 0).
Proof.
  intros Hreach. apply reachable_entriesInvariant in Hreach as (_ & _ & Hcoherent).
  pose proof (allRowsOf_length (app_pathAttachments st) _ Hcoherent) as Hlen.
  split; [done|]. rewrite <- Hlen. unfold handleExportAllCSV, allRowsOf.
  destruct (List.concat _); simpl; split; intros H; done.
Qed.

Lemma export_matches_count_witness :
  let st :=
    handleValidate
      (mkAppState
         "dn : uni/tn-T/ap-A/epg-EPG-VLAN713-x/rspathAtt-[topology/pod-3/paths-301/pathep-[eth1/9]]"
         (updateEntry "1" epgNameField "EPG-VLAN713-x"
            (updateEntry "1" endpointInputField "303  eth1/5  10.0.0.1  vlan-713"
               (app_entries initialState)))
         [] None) in
  length (allRowsOf (app_entries st) (app_pathAttachments st))
    = totalNotAllowed (app_entries st)
  /\ (handleExportAllCSV (app_entries st) (app_pathAttachments st)
        = inl "No validation issues to export."
      <-> totalNotAllowed (app_entries st) = 0).
Proof.
  intros st. apply export_matches_count.
  apply reach_validate.
  apply (reach_moquery
           (mkAppState "" (updateEntry "1" epgNameField "EPG-VLAN713-x"
                             (updateEntry "1" endpointInputField
                                "303  eth1/5  10.0.0.1  vlan-713"
                                (app_entries initialState))) [] None)).
  apply (reach_update
           (mkAppState "" (updateEntry "1" endpointInputField
                             "303  eth1/5  10.0.0.1  vlan-713"
                             (app_entries initialState)) [] None)).
  apply (reach_update initialState). apply reach_initial.
Defined.



End Handlers.

(** X30: when the attachment blob gives a record, [handleValidate] clears
    the error, stores the records, and gives every entry whose endpoint text
    parses and whose EPG name holds a VLAN one result per path of the text,
    in the order of the paths, judged under the VLAN of the EPG name against
    the records of the blob. *)
Theorem handleValidate_results (st : AppState) (entry : ValidationEntry)
    (parsedEndpoint : EndpointData) :
  parseMoqueryOutput (app_moqueryInput st) <> [] ->
  entry ∈ app_entries st ->
  parseEndpointOutput (entry_endpointInput entry) = Some parsedEndpoint ->
  extractVlanFromEpg (entry_epgName entry) <> "" ->
  let parsedMoquery := parseMoqueryOutput (app_moqueryInput st) in
  let vlanFromEpg := extractVlanFromEpg (entry_epgName entry) in
  app_error (handleValidate st) = None
  /\ app_pathAttachments (handleValidate st) = parsedMoquery
  /\ exists results endpointData,
       mkValidationEntry (entry_id entry) (entry_endpointInput entry)
         (entry_epgName entry) (Some results) (Some endpointData)
         ∈ app_entries (handleValidate st)
       /\ ep_vlan endpointData = vlanFromEpg
       /\ ep_paths endpointData = ep_paths parsedEndpoint
       /\ Forall2 (fun path result =>
                     res_path result = path
                     /\ (res_status result = allowed
                         <-> attached vlanFromEpg path parsedMoquery))
            (ep_paths parsedEndpoint) results.
Proof.
  intros Hparsed Hentry Hendpoint Hvlan parsedMoquery vlanFromEpg.
  unfold handleValidate. fold parsedMoquery.
  destruct (length parsedMoquery =? 0) eqn:Hlen.
  { apply Nat.eqb_eq, length_zero_iff_nil in Hlen. exfalso. apply Hparsed. exact Hlen. }
  simpl. split; [done|]. split; [done|].
  set (endpointData := mkEndpointData vlanFromEpg (ep_ip parsedEndpoint)
                         (ep_paths parsedEndpoint) (ep_pod parsedEndpoint)
                         (ep_pathsWithNodes parsedEndpoint)
                         (ep_pathsWithIPs parsedEndpoint)).
  exists (validateVlanAllowances endpointData parsedMoquery), endpointData.
  split; [|split; [done|split; [done|]]].
  - apply list_elem_of_In, in_map_iff. exists entry.
    split; [|by apply list_elem_of_In].
    rewrite validateEntry_unguarded, Hendpoint. cbn zeta.
    subst endpointData vlanFromEpg.
    by destruct (extractVlanFromEpg (entry_epgName entry)).
  - rewrite validateVlanAllowances_map.
    apply Forall2_fmap_r, Forall_Forall2_diag, Forall_forall.
    intros path _. split; [done|].
    change vlanFromEpg with (ep_vlan endpointData).
    rewrite verdict_status, <- (verdict_allowed endpointData parsedMoquery path).
    by destruct (res_isVlanAllowed _).
Qed.

Lemma handleValidate_results_witness :
  let st := mkAppState
              "dn : uni/tn-T/ap-A/epg-EPG-VLAN623-x/rspathAtt-[topology/pod-2/paths-303/pathep-[eth1/5]]"
              [mkValidationEntry "1" "303  eth1/5  10.0.0.1  vlan-713" "EPG-VLAN623-x"
                 None None]
              [] (Some "old") in
  let entry := mkValidationEntry "1" "303  eth1/5  10.0.0.1  vlan-713" "EPG-VLAN623-x"
                 None None in
  let parsedMoquery := parseMoqueryOutput (app_moqueryInput st) in
  app_error (handleValidate st) = None
  /\ app_pathAttachments (handleValidate st) = parsedMoquery
  /\ exists results endpointData,
       mkValidationEntry "1" "303  eth1/5  10.0.0.1  vlan-713" "EPG-VLAN623-x"
         (Some results) (Some endpointData)
         ∈ app_entries (handleValidate st)
       /\ ep_vlan endpointData = extractVlanFromEpg "EPG-VLAN623-x"
       /\ ep_paths endpointData = ["eth1/5"]
       /\ Forall2 (fun path result =>
                     res_path result = path
                     /\ (res_status result = allowed
                         <-> attached (extractVlanFromEpg "EPG-VLAN623-x") path
                               parsedMoquery))
            ["eth1/5"] results.
Proof.
  intros st entry parsedMoquery.
  apply (handleValidate_results st entry
           (mkEndpointData "713" "10.0.0.1" ["eth1/5"] ""
              {["eth1/5" := "303"]} {["eth1/5" := "10.0.0.1"]})).
  - vm_compute. discriminate.
  - apply list_elem_of_In. by left.
  - vm_compute. reflexivity.
  - vm_compute. discriminate.
Defined.
